(** * Crash-data statistics: a shallow embedding of [scripts/statistics.js]

    The script loads a CSV of traffic crashes, normalises every cell while
    loading, folds the rows into a statistics object and prints a report.
    This file embeds the script function by function, on top of a small
    model of the parts of the JavaScript runtime the script relies on
    (strings, numbers, property keys, ordinary objects and their prototype,
    [Array.prototype.sort], promises and the console).

    Conventions of the model.
    - A string is a sequence of UTF-16 code units; the model keeps the code
      units 0..255 ([ascii]).
    - A number is [NaN], an infinity or an exact rational; the rounding and
      the overflow of binary64 and the sign of zero are not modelled.
    - What the engine or the host decides (date parsing, the local time
      zone, locale formatting, the rendering of non-integer numbers) is a
      [Variable] of a [Section]. *)

From Stdlib Require Import ZArith QArith Qreduction Qabs List String Ascii Bool.
From Stdlib Require Import Lia.
From Stdlib Require Import DecimalString Permutation Sorted.
From Stdlib Require OrderedTypeEx.
Import ListNotations.
Open Scope string_scope.
Open Scope Z_scope.

(* ================================================================= *)
(** * Part I. The runtime *)

(* ----------------------------------------------------------------- *)
(** ** Strings *)

Module Str.

(** [WhiteSpace] and [LineTerminator] code units below 256: the set that
    both the regular expression class [\s] and [String.prototype.trim]
    use. *)
Definition isWhiteSpace (c : ascii) : bool :=
  let n := N_of_ascii c in
  ((9 <=? n) && (n <=? 13) || (n =? 32) || (n =? 160))%N.

Definition isDigit (c : ascii) : bool :=
  let n := N_of_ascii c in ((48 <=? n) && (n <=? 57))%N.

Definition digitValue (c : ascii) : Z := Z.of_N (N_of_ascii c) - 48.

Fixpoint trimStart (s : string) : string :=
  match s with
  | String c r => if isWhiteSpace c then trimStart r else s
  | EmptyString => EmptyString
  end.

Fixpoint trimEnd (s : string) : string :=
  match s with
  | String c r =>
      match trimEnd r with
      | EmptyString => if isWhiteSpace c then EmptyString else String c EmptyString
      | r' => String c r'
      end
  | EmptyString => EmptyString
  end.

(** [String.prototype.trim] *)
Definition trim (s : string) : string := trimEnd (trimStart s).

Definition toLowerCaseChar (c : ascii) : ascii :=
  let n := N_of_ascii c in
  if ((65 <=? n) && (n <=? 90) ||
      (192 <=? n) && (n <=? 222) && negb (n =? 215))%N
  then ascii_of_N (n + 32) else c.

(** [String.prototype.toLowerCase] *)
Fixpoint toLowerCase (s : string) : string :=
  match s with
  | String c r => String (toLowerCaseChar c) (toLowerCase r)
  | EmptyString => EmptyString
  end.

(** [s.replace(/\s\s+/g, ' ')]: every maximal run of two or more
    white-space code units becomes one space; a run of one is kept.
    [pending] is the run being read: its first code unit and whether a
    second one has been seen. *)
Fixpoint collapseFrom (pending : option (ascii * bool)) (s : string) : string :=
  let flush :=
    match pending with
    | Some (_, true) => " "
    | Some (c, false) => String c EmptyString
    | None => EmptyString
    end in
  match s with
  | String c r =>
      if isWhiteSpace c
      then match pending with
           | Some (c0, _) => collapseFrom (Some (c0, true)) r
           | None => collapseFrom (Some (c, false)) r
           end
      else flush ++ String c (collapseFrom None r)
  | EmptyString => flush
  end.

Definition collapseWhiteSpace (s : string) : string := collapseFrom None s.

(** [s.split(sep)] for a non-empty separator: the pieces between the
    occurrences of [sep], found from the left without overlap.  [cur] is
    the piece being read; [skip] counts the code units of a separator
    still to be passed over. *)
Fixpoint splitFrom (sep : string) (cur : string) (skip : nat) (s : string)
  : list string :=
  match s with
  | String c r =>
      match skip with
      | S k => splitFrom sep cur k r
      | O =>
          if String.prefix sep s
          then cur :: splitFrom sep EmptyString (String.length sep - 1) r
          else splitFrom sep (cur ++ String c EmptyString) O r
      end
  | EmptyString => [cur]
  end.

Definition split (sep s : string) : list string := splitFrom sep EmptyString O s.

(** [a.join(sep)] on an array of strings *)
Fixpoint join (sep : string) (l : list string) : string :=
  match l with
  | [] => EmptyString
  | [x] => x
  | x :: r => x ++ sep ++ join sep r
  end.

(** The code-unit order of [<] on strings. *)
Definition lt (a b : string) : bool := String.ltb a b.

Definition contains (c : ascii) (s : string) : bool :=
  existsb (Ascii.eqb c) (list_ascii_of_string s).

End Str.

(* ----------------------------------------------------------------- *)
(** ** Numbers *)

Inductive number : Type :=
| NaN
| Infinity (negative : bool)
| Finite (q : Q).

Module Num.

(** Finite numbers are kept in lowest terms, so that equal numbers are
    equal terms. *)
Definition fin (q : Q) : number := Finite (Qred q).
Definition ofZ (z : Z) : number := Finite (inject_Z z).
Definition ofNat (n : nat) : number := ofZ (Z.of_nat n).

Definition isNaN (n : number) : bool :=
  match n with NaN => true | _ => false end.

Definition sign (q : Q) : comparison := Qcompare q 0.

Definition add (a b : number) : number :=
  match a, b with
  | NaN, _ | _, NaN => NaN
  | Infinity s, Infinity t => if Bool.eqb s t then Infinity s else NaN
  | Infinity s, Finite _ | Finite _, Infinity s => Infinity s
  | Finite x, Finite y => fin (x + y)%Q
  end.

Definition neg (a : number) : number :=
  match a with
  | NaN => NaN
  | Infinity s => Infinity (negb s)
  | Finite x => fin (- x)%Q
  end.

Definition sub (a b : number) : number := add a (neg b).

Definition mul (a b : number) : number :=
  match a, b with
  | NaN, _ | _, NaN => NaN
  | Infinity s, Infinity t => Infinity (xorb s t)
  | Infinity s, Finite x | Finite x, Infinity s =>
      match sign x with
      | Eq => NaN
      | Gt => Infinity s
      | Lt => Infinity (negb s)
      end
  | Finite x, Finite y => fin (x * y)%Q
  end.

Definition div (a b : number) : number :=
  match a, b with
  | NaN, _ | _, NaN => NaN
  | Infinity _, Infinity _ => NaN
  | Infinity s, Finite y =>
      match sign y with Lt => Infinity (negb s) | _ => Infinity s end
  | Finite _, Infinity _ => ofZ 0
  | Finite x, Finite y =>
      match sign y with
      | Eq => match sign x with
              | Eq => NaN
              | Gt => Infinity false
              | Lt => Infinity true
              end
      | _ => fin (x / y)%Q
      end
  end.

(** The [%] operator: the remainder of the truncating division, with the
    sign of the dividend. *)
Definition rem (a b : number) : number :=
  match a, b with
  | NaN, _ | _, NaN => NaN
  | Infinity _, _ => NaN
  | Finite x, Infinity _ => Finite x
  | Finite x, Finite y =>
      match sign y with
      | Eq => NaN
      | _ => let t := (x / y)%Q in
             let k := Z.quot (Qnum t) (Z.pos (Qden t)) in
             fin (x - y * inject_Z k)%Q
      end
  end.

(** [a < b] on numbers: false as soon as an operand is [NaN]. *)
Definition lt (a b : number) : bool :=
  match a, b with
  | NaN, _ | _, NaN => false
  | Infinity s, Infinity t => s && negb t
  | Infinity s, Finite _ => s
  | Finite _, Infinity t => negb t
  | Finite x, Finite y => match Qcompare x y with Lt => true | _ => false end
  end.

(** [ToBoolean] of a number *)
Definition truthy (a : number) : bool :=
  match a with
  | NaN => false
  | Infinity _ => true
  | Finite x => match sign x with Eq => false | _ => true end
  end.

(** [m] times ten to the power [e] *)
Definition decimal (m e : Z) : number :=
  if 0 <=? e then fin (inject_Z (m * 10 ^ e))
  else fin (m # Z.to_pos (10 ^ (- e))).

Definition Z_to_string (z : Z) : string := NilZero.string_of_int (Z.to_int z).

(** *** Numeric literals in strings *)

Fixpoint spanWhile (p : ascii -> bool) (s : string) : string * string :=
  match s with
  | String c r =>
      if p c then let '(a, b) := spanWhile p r in (String c a, b)
      else (EmptyString, s)
  | EmptyString => (EmptyString, EmptyString)
  end.

Definition hexValue (c : ascii) : option Z :=
  let n := Z.of_N (N_of_ascii c) in
  if (48 <=? n) && (n <=? 57) then Some (n - 48)
  else if (97 <=? n) && (n <=? 102) then Some (n - 87)
  else if (65 <=? n) && (n <=? 70) then Some (n - 55)
  else None.

Definition isDigitOf (radix : Z) (c : ascii) : bool :=
  match hexValue c with Some v => v <? radix | None => false end.

Fixpoint digitsValue (radix acc : Z) (s : string) : Z :=
  match s with
  | String c r =>
      digitsValue radix
        (acc * radix + match hexValue c with Some v => v | None => 0 end) r
  | EmptyString => acc
  end.

(** [ExponentPart]: [e] or [E], an optional sign, one digit or more. *)
Definition scanExponent (s : string) : option (Z * string) :=
  match s with
  | String c r =>
      if Ascii.eqb c "e" || Ascii.eqb c "E" then
        let '(sg, r1) :=
          match r with
          | String "+" r' => (1, r')
          | String "-" r' => (-1, r')
          | _ => (1, r)
          end in
        let '(ds, rest) := spanWhile Str.isDigit r1 in
        match ds with
        | EmptyString => None
        | _ => Some (sg * digitsValue 10 0 ds, rest)
        end
      else None
  | EmptyString => None
  end.

(** The longest prefix that is a [StrUnsignedDecimalLiteral], with its
    value and what follows it. *)
Definition scanUnsigned (s : string) : option (number * string) :=
  if String.prefix "Infinity" s
  then Some (Infinity false, String.substring 8 (String.length s - 8) s)
  else
    let '(ip, r) := spanWhile Str.isDigit s in
    let '(fp, r1) :=
      match r with
      | String "." r' => spanWhile Str.isDigit r'
      | _ => (EmptyString, r)
      end in
    match ip, fp with
    | EmptyString, EmptyString => None
    | _, _ =>
        let m := digitsValue 10 0 (ip ++ fp) in
        let sc := Z.of_nat (String.length fp) in
        match scanExponent r1 with
        | Some (e, r2) => Some (decimal m (e - sc), r2)
        | None => Some (decimal m (- sc), r1)
        end
    end.

(** The longest prefix that is a [StrDecimalLiteral]. *)
Definition scanDecimal (s : string) : option (number * string) :=
  match s with
  | String "+" r => scanUnsigned r
  | String "-" r =>
      match scanUnsigned r with
      | Some (n, rest) => Some (neg n, rest)
      | None => None
      end
  | _ => scanUnsigned s
  end.

(** [NonDecimalIntegerLiteral]: [0x], [0o] or [0b] and digits of that
    radix, unsigned. *)
Definition scanNonDecimal (s : string) : option number :=
  match s with
  | String "0" (String c r) =>
      let radix :=
        if Ascii.eqb c "x" || Ascii.eqb c "X" then Some 16
        else if Ascii.eqb c "o" || Ascii.eqb c "O" then Some 8
        else if Ascii.eqb c "b" || Ascii.eqb c "B" then Some 2
        else None in
      match radix, r with
      | Some b, String _ _ =>
          if forallb (isDigitOf b) (list_ascii_of_string r)
          then Some (ofZ (digitsValue b 0 r)) else None
      | _, _ => None
      end
  | _ => None
  end.

(** [StringToNumber]: what [ToNumber] does to a string. *)
Definition ofString (s : string) : number :=
  match Str.trim s with
  | EmptyString => ofZ 0
  | t =>
      match scanNonDecimal t with
      | Some n => n
      | None =>
          match scanDecimal t with
          | Some (n, EmptyString) => n
          | _ => NaN
          end
      end
  end.

(** The global [parseFloat] on a string *)
Definition parseFloat (s : string) : number :=
  match scanDecimal (Str.trimStart s) with
  | Some (n, _) => n
  | None => NaN
  end.

End Num.

(* ----------------------------------------------------------------- *)
(** ** Arrays *)

Module Arr.

Section Sort.
Context {A : Type}.
Variable comparefn : A -> A -> number.

(** [SortCompare]: a [NaN] from the comparison function counts as 0. *)
Definition before (x y : A) : bool := Num.lt (comparefn x y) (Num.ofZ 0).

(** [x] goes in front of the first element that does not sort strictly
    before it. *)
Fixpoint insert (x : A) (l : list A) : list A :=
  match l with
  | y :: r => if before y x then y :: insert x r else x :: l
  | [] => [x]
  end.

(** [Array.prototype.sort(comparefn)]: the sort is stable, elements
    that compare equal keep their order. *)
Fixpoint sort (l : list A) : list A :=
  match l with
  | x :: r => insert x (sort r)
  | [] => []
  end.
End Sort.

(** The comparison [sort()] uses when it is given no function, on
    strings. *)
Definition defaultCompare (a b : string) : number :=
  if Str.lt a b then Num.ofZ (-1)
  else if Str.lt b a then Num.ofZ 1 else Num.ofZ 0.

(** [a.slice(0, n)] *)
Definition slice0 {A : Type} (n : nat) (l : list A) : list A := firstn n l.

(** [a.indexOf(x)] on an array of strings *)
Fixpoint indexOfFrom (i : Z) (x : string) (l : list string) : Z :=
  match l with
  | y :: r => if String.eqb x y then i else indexOfFrom (i + 1) x r
  | [] => -1
  end.

Definition indexOf (l : list string) (x : string) : Z := indexOfFrom 0 x l.

End Arr.

(* ----------------------------------------------------------------- *)
(** ** Ordinary objects *)

Module Obj.

(** The data properties an ordinary object inherits from
    [Object.prototype]; all of them hold functions and are writable. *)
Definition prototypeMethods : list string :=
  [ "constructor"; "__defineGetter__"; "__defineSetter__"; "hasOwnProperty";
    "__lookupGetter__"; "__lookupSetter__"; "isPrototypeOf";
    "propertyIsEnumerable"; "toString"; "valueOf"; "toLocaleString" ].

(** [Object.prototype] also has one accessor property. *)
Definition protoAccessor : string := "__proto__".

Definition isPrototypeMethod (k : string) : bool :=
  existsb (String.eqb k) prototypeMethods.

(** The names an object literal answers to without owning them. *)
Definition inherited (k : string) : bool :=
  isPrototypeMethod k || String.eqb k protoAccessor.

(** A property key is an array index when it is the canonical decimal
    rendering of an integer from 0 to 2^32 - 2. *)
Definition arrayIndex (k : string) : option Z :=
  match k with
  | EmptyString => None
  | String c r =>
      if forallb Str.isDigit (list_ascii_of_string k)
         && (negb (Ascii.eqb c "0") || String.eqb r EmptyString)
      then let n := Num.digitsValue 10 0 k in
           if n <=? 4294967294 then Some n else None
      else None
  end.

(** What reading [o[k]] finds. *)
Inductive slot (A : Type) : Type :=
| Own (v : A)
| Method (name : string)  (* a function inherited from [Object.prototype] *)
| Prototype               (* [Object.prototype] itself, through [__proto__] *)
| Absent.                 (* [undefined] *)
Arguments Own {A} v.
Arguments Method {A} name.
Arguments Prototype {A}.
Arguments Absent {A}.

Section Properties.
Context {A : Type}.

(** The own properties, in the order of their creation. *)
Definition t : Type := list (string * A).

Fixpoint getOwn (o : t) (k : string) : option A :=
  match o with
  | (k', v) :: r => if String.eqb k k' then Some v else getOwn r k
  | [] => None
  end.

Fixpoint replaceOwn (o : t) (k : string) (v : A) : t :=
  match o with
  | (k', v') :: r =>
      if String.eqb k k' then (k', v) :: r else (k', v') :: replaceOwn r k v
  | [] => []
  end.

(** [CreateDataProperty]: what an object literal, [Object.fromEntries]
    and the first assignment to a fresh name do. *)
Definition define (o : t) (k : string) (v : A) : t :=
  match getOwn o k with
  | Some _ => replaceOwn o k v
  | None => (o ++ [(k, v)])%list
  end.

(** [o[k]] as an expression: own properties first, then the
    prototype. *)
Definition get (o : t) (k : string) : slot A :=
  match getOwn o k with
  | Some v => Own v
  | None =>
      if isPrototypeMethod k then Method k
      else if String.eqb k protoAccessor then Prototype
      else Absent
  end.

(** [o[k] = v] for a primitive [v]: an own property is overwritten; the
    setter of [__proto__] ignores a primitive; any other name becomes a
    new own property, also when the prototype has a (writable) property
    of that name. *)
Definition set (o : t) (k : string) (v : A) : t :=
  match getOwn o k with
  | Some _ => replaceOwn o k v
  | None => if String.eqb k protoAccessor then o else (o ++ [(k, v)])%list
  end.

Fixpoint insertIndex (x : Z * string) (l : list (Z * string))
  : list (Z * string) :=
  match l with
  | y :: r => if fst y <? fst x then y :: insertIndex x r else x :: l
  | [] => [x]
  end.

Definition sortIndices (l : list (Z * string)) : list (Z * string) :=
  fold_right insertIndex [] l.

Fixpoint indexKeys (ks : list string) : list (Z * string) :=
  match ks with
  | k :: r =>
      match arrayIndex k with
      | Some i => (i, k) :: indexKeys r
      | None => indexKeys r
      end
  | [] => []
  end.

Definition isName (k : string) : bool :=
  match arrayIndex k with Some _ => false | None => true end.

(** [Object.keys(o)]: the array indices in ascending numeric order, then
    the other names in the order of their creation. *)
Definition keys (o : t) : list string :=
  let ks := map fst o in
  (map snd (sortIndices (indexKeys ks)) ++ filter isName ks)%list.

(** [Object.entries(o)] *)
Definition entries (o : t) : list (string * A) :=
  flat_map (fun k => match getOwn o k with
                     | Some v => [(k, v)]
                     | None => []
                     end) (keys o).

(** [Object.fromEntries(l)] *)
Definition fromEntries (l : list (string * A)) : t :=
  fold_left (fun o kv => define o (fst kv) (snd kv)) l [].

End Properties.
Arguments t A : clear implicits.

End Obj.

(* ----------------------------------------------------------------- *)
(** ** Values *)

(** The values a cell of a loaded row can hold. *)
Inductive Value : Type :=
| undefined
| boolean (b : bool)
| num (n : number)
| str (s : string).

(** [v === true] *)
Definition isTrue (v : Value) : bool :=
  match v with boolean true => true | _ => false end.

(** A row object: [item.Name] is [field item "Name"], [undefined] when the
    row has no such column.  (None of the names the script reads is one
    that [Object.prototype] answers to.) *)
Definition Item : Type := Obj.t Value.

Definition field (item : Item) (name : string) : Value :=
  match Obj.getOwn item name with
  | Some v => v
  | None => undefined
  end.

(* ----------------------------------------------------------------- *)
(** ** Promises and stream events *)

Inductive Promise (E A : Type) : Type :=
| Pending
| Fulfilled (v : A)
| Rejected (e : E).
Arguments Pending {E A}.
Arguments Fulfilled {E A} v.
Arguments Rejected {E A} e.

(** What the two streams of [createReadStream(f).pipe(csv(...))] can emit.
    [pipe] does not forward the errors of the file stream to the parser. *)
Inductive StreamEvent (E : Type) : Type :=
| sourceError (e : E)       (* ['error'] on the file stream *)
| parserError (e : E)       (* ['error'] on the parser stream *)
| parserData (row : Item)   (* ['data'] on the parser stream *)
| parserEnd.                (* ['end'] on the parser stream *)
Arguments sourceError {E} e.
Arguments parserError {E} e.
Arguments parserData {E} row.
Arguments parserEnd {E}.

(* ================================================================= *)
(** * Part II. The script *)

(** A [Date] is its time value: milliseconds since the epoch, or [None] for
    the time value [NaN] of an invalid date. *)
Definition Date : Type := option Z.

Record Breakdowns : Type := {
  dayOfWeek : Obj.t number;
  hour : Obj.t number;
  intersection : Obj.t number;
  month : Obj.t number;
  type : Obj.t number;
  severity : Obj.t number;
  intersectionTop10 : option (Obj.t number)
}.

(** The statistics object.  [counters] holds the own properties the object
    gains through [_incrementSummation(stats, ...)]; the other fields are
    the properties the script names. *)
Record Stats : Type := {
  totalCrashes : number;
  breakdowns : Breakdowns;
  earliestCrashDate : option Date;
  latestCrashDate : option Date;
  counters : Obj.t number
}.

(** What a call has written with [console.log], and whether it returned or
    threw a [TypeError]. *)
Record Console : Type := {
  lines : list string;
  threw : bool
}.

Section Script.

(** ** The host *)

(** [Number::toString] of a number that is not an integer below 10^21 in
    magnitude. *)
Variable Number_toString_ext : Q -> string.
(** [Date.parse] *)
Variable Date_parse : string -> Date.
(** The month, from 0, of a time value in the local time zone. *)
Variable Date_localMonth : Z -> nat.
(** [n.toLocaleString('en-US', { maximumFractionDigits: 2 })] *)
Variable Number_toLocaleString : number -> string.
(** [d.toLocaleDateString('en-US', { year: 'numeric', month: 'short',
    day: 'numeric' })] *)
Variable Date_toLocaleDateString : Date -> string.
(** The errors a stream can emit. *)
Variable Error : Type.

(** ** Conversions and operators *)

Definition Number_toString (n : number) : string :=
  match n with
  | NaN => "NaN"
  | Infinity false => "Infinity"
  | Infinity true => "-Infinity"
  | Finite q =>
      if (Qden q =? 1)%positive && (Z.abs (Qnum q) <? 10 ^ 21)
      then Num.Z_to_string (Qnum q)
      else Number_toString_ext q
  end.

Definition ToNumber (v : Value) : number :=
  match v with
  | undefined => NaN
  | boolean b => if b then Num.ofZ 1 else Num.ofZ 0
  | num n => n
  | str s => Num.ofString s
  end.

Definition ToString (v : Value) : string :=
  match v with
  | undefined => "undefined"
  | boolean b => if b then "true" else "false"
  | num n => Number_toString n
  | str s => s
  end.

Definition ToPropertyKey (v : Value) : string := ToString v.

(** [a + b] *)
Definition plus (a b : Value) : Value :=
  match a, b with
  | str _, _ | _, str _ => str (ToString a ++ ToString b)
  | _, _ => num (Num.add (ToNumber a) (ToNumber b))
  end.

(** [a - b] *)
Definition minus (a b : Value) : number := Num.sub (ToNumber a) (ToNumber b).

(** [a % b] *)
Definition modulo (a b : Value) : number := Num.rem (ToNumber a) (ToNumber b).

(** [array[i]] on an array of strings, for a number [i]: the element at
    an integer index inside the array, [undefined] otherwise. *)
Definition at_ (array : list string) (i : number) : Value :=
  match i with
  | Finite q =>
      if (Qden q =? 1)%positive && (0 <=? Qnum q)
      then match nth_error array (Z.to_nat (Qnum q)) with
           | Some s => str s
           | None => undefined
           end
      else undefined
  | _ => undefined
  end.

(** Conversions of what a property read finds. *)
Definition slotToBoolean (s : Obj.slot number) : bool :=
  match s with
  | Obj.Own n => Num.truthy n
  | Obj.Method _ | Obj.Prototype => true
  | Obj.Absent => false
  end.

Definition slotToNumber (s : Obj.slot number) : number :=
  match s with
  | Obj.Own n => n
  | _ => NaN
  end.

Definition slotToString (s : Obj.slot number) : string :=
  match s with
  | Obj.Own n => Number_toString n
  | Obj.Method name => "function " ++ name ++ "() { [native code] }"
  | Obj.Prototype => "[object Object]"
  | Obj.Absent => "undefined"
  end.

(** [new Date(v)] *)
Definition Date_new (v : Value) : Date :=
  match v with
  | str s => Date_parse s
  | _ =>
      (* [TimeClip]: beyond 8.64e15 ms there is no date; a fraction of a
         millisecond is dropped *)
      match ToNumber v with
      | Finite q =>
          if Qle_bool (Qabs q) (inject_Z 8640000000000000)
          then Some (Z.quot (Qnum q) (Z.pos (Qden q)))
          else None
      | _ => None
      end
  end.

(** [a < b] on dates: false as soon as one of them is invalid. *)
Definition Date_lt (a b : Date) : bool :=
  match a, b with
  | Some x, Some y => x <? y
  | _, _ => false
  end.

(** [a <= b] on dates: false as soon as one of them is invalid. *)
Definition Date_le (a b : Date) : bool :=
  match a, b with
  | Some x, Some y => x <=? y
  | _, _ => false
  end.

(** [d.getMonth()] *)
Definition Date_getMonth (d : Date) : number :=
  match d with
  | Some t => Num.ofNat (Date_localMonth t)
  | None => NaN
  end.

(** ** Constants *)

Definition CRASH_LOCATION_HEADER : string := "CrashLocation".

Definition DAY_OF_WEEK_CONVERSION : list string :=
  [ "Sunday"; "Monday"; "Tuesday"; "Wednesday"; "Thursday"; "Friday";
    "Saturday" ].

Definition MONTH_CONVERSION : list string :=
  [ "January"; "February"; "March"; "April"; "May"; "June"; "July";
    "August"; "September"; "October"; "November"; "December" ].

(** ** Helpers *)

Definition _alphaSort (a b : string) : number :=
  if Str.lt a b then Num.ofZ (-1)
  else if Str.lt b a then Num.ofZ 1
  else Num.ofZ 0.

Definition _convertToPercentString (value : Obj.slot number) (total : number)
  : string :=
  Number_toLocaleString
    (Num.div (Num.mul (Num.ofZ 100) (slotToNumber value)) total) ++ "%".

Definition _incrementSummation (obj : Obj.t number) (propertyName : Value)
  : Obj.t number :=
  let key := ToPropertyKey propertyName in
  if negb (slotToBoolean (Obj.get obj key))
  then Obj.set obj key (Num.ofZ 1)
  else Obj.set obj key (Num.add (slotToNumber (Obj.get obj key)) (Num.ofZ 1)).

Definition _isNumeric (v : Value) : bool :=
  match v with
  | str s =>
      negb (Num.isNaN (ToNumber v)) && negb (Num.isNaN (Num.parseFloat s))
  | _ => false
  end.

Definition _logConsoleStat (title : string) (value : Obj.slot number)
           (totalCrashes : number) : list string :=
  [ title ++ " - " ++ slotToString value
          ++ " (" ++ _convertToPercentString value totalCrashes ++ ")" ].

Definition tab : string := String (ascii_of_nat 9) EmptyString.

Definition _logConsoleBreakdown (title : string) (breakdown : Obj.t number)
           (totalCrashes : number)
           (sortFunction : option (string -> string -> number))
  : list string :=
  let orderedProps :=
    match sortFunction with
    | Some f => Arr.sort f (Obj.keys breakdown)
    | None => Obj.keys breakdown
    end in
  (title ::
   flat_map (fun property =>
               _logConsoleStat (tab ++ property)
                               (Obj.get breakdown property) totalCrashes)
            orderedProps)%list.

Definition _logConsoleLineDivider : list string :=
  [ "================================================================" ].

(** The state the handlers of [loadCrashData] share. *)
Record Loading : Type := {
  results : list Item;                       (* the array [results] *)
  errorLog : list Error;                     (* what [console.error] got *)
  promise : Promise Error (list Item);       (* the promise returned *)
  uncaught : option Error                    (* an ['error'] nobody heard *)
}.

Definition console_error (err : Error) (w : Loading) : Loading :=
  {| results := results w; errorLog := (errorLog w ++ [err])%list;
     promise := promise w; uncaught := uncaught w |}.

(** The two functions the promise hands to its executor: only the first
    call of either settles the promise. *)
Definition reject (err : Error) (w : Loading) : Loading :=
  {| results := results w; errorLog := errorLog w;
     promise := match promise w with Pending => Rejected err | p => p end;
     uncaught := uncaught w |}.

Definition resolve (v : list Item) (w : Loading) : Loading :=
  {| results := results w; errorLog := errorLog w;
     promise := match promise w with Pending => Fulfilled v | p => p end;
     uncaught := uncaught w |}.

(** Reject a promise resolution and log an error. *)
Definition _rejectPromiseError (reject : Error -> Loading -> Loading)
           (err : Error) (contextMessage : string) (w : Loading) : Loading :=
  reject err (console_error err w).

(** ** [computeStats] *)

Definition newStats (data : list Item) : Stats :=
  {| totalCrashes := Num.ofNat (List.length data);
     breakdowns := {| dayOfWeek := []; hour := []; intersection := [];
                      month := []; type := []; severity := [];
                      intersectionTop10 := None |};
     earliestCrashDate := None;
     latestCrashDate := None;
     counters := [] |}.

(** [( item.HourofDay + 4 ) % 24] *)
Definition shiftedHour (hourOfDay : Value) : number :=
  modulo (plus hourOfDay (num (Num.ofZ 4))) (num (Num.ofZ 24)).

(** [if ( item.Flag === true ) _incrementSummation( stats, 'name' )] *)
Definition countIf (item : Item) (flag name : string) (c : Obj.t number)
  : Obj.t number :=
  if isTrue (field item flag) then _incrementSummation c (str name) else c.

(** The body of the loop over [data]. *)
Definition visit (stats : Stats) (item : Item) : Stats :=
  let crashDate := Date_new (field item "CrashDateandTime") in
  let b := breakdowns stats in
  {| totalCrashes := totalCrashes stats;
     earliestCrashDate :=
       match earliestCrashDate stats with
       | None => Some crashDate
       | Some e => if Date_lt crashDate e then Some crashDate else Some e
       end;
     latestCrashDate :=
       match latestCrashDate stats with
       | None => Some crashDate
       | Some l => if Date_lt l crashDate then Some crashDate else Some l
       end;
     breakdowns :=
       {| type := _incrementSummation (type b) (field item "CrashType");
          severity :=
            _incrementSummation (severity b) (field item "CrashSeverity");
          month :=
            _incrementSummation (month b)
              (at_ MONTH_CONVERSION
                   (Date_getMonth (Date_new (field item "CrashDateandTime"))));
          dayOfWeek :=
            _incrementSummation (dayOfWeek b)
              (at_ DAY_OF_WEEK_CONVERSION
                   (minus (field item "Dayoftheweek") (num (Num.ofZ 1))));
          hour :=
            _incrementSummation (hour b)
              (num (shiftedHour (field item "HourofDay")));
          intersection :=
            _incrementSummation (intersection b) (field item "CrashLocation");
          intersectionTop10 := intersectionTop10 b |};
     counters :=
       countIf item "DrugInvolved" "includesDrugs"
         (countIf item "AnimalInvolved" "includesAnimal"
            (countIf item "CellPhoneInvolved" "includesCellPhone"
               (countIf item "BicycleInvolved" "includesBicycle"
                  (countIf item "AggressiveDriverInvolved"
                     "includesAggressiveDriver"
                     (countIf item "AlcoholInvolved" "includesAlcohol"
                        (countIf item "PropertyDamageIndicator"
                           "includesPropertyDamage" (counters stats))))))) |}.

(** [( a, b ) => b[ 1 ] - a[ 1 ]] *)
Definition byCountDescending (a b : string * number) : number :=
  Num.sub (snd b) (snd a).

Definition top10 (o : Obj.t number) : list (string * number) :=
  Arr.slice0 10 (Arr.sort byCountDescending (Obj.entries o)).

Definition computeStats (data : list Item) : Stats :=
  let stats := fold_left visit data (newStats data) in
  let b := breakdowns stats in
  {| totalCrashes := totalCrashes stats;
     earliestCrashDate := earliestCrashDate stats;
     latestCrashDate := latestCrashDate stats;
     breakdowns :=
       {| type := type b; severity := severity b; month := month b;
          dayOfWeek := dayOfWeek b; hour := hour b;
          intersection := intersection b;
          intersectionTop10 :=
            Some (Obj.fromEntries (top10 (intersection b))) |};
     counters := counters stats |}.

(** ** [displayStats] *)

Definition byIndexIn (table : list string) (a b : string) : number :=
  Num.sub (Num.ofZ (Arr.indexOf table a)) (Num.ofZ (Arr.indexOf table b)).

(** [stats.name] for one of the seven counters *)
Definition counter (stats : Stats) (name : string) : Obj.slot number :=
  Obj.get (counters stats) name.

Definition miscSection (stats : Stats) : list string :=
  let total := totalCrashes stats in
  ([ "By Misc:" ]
   ++ _logConsoleStat (tab ++ "Aggressive Driving")
        (counter stats "includesAggressiveDriver") total
   ++ _logConsoleStat (tab ++ "Involved Alcohol ")
        (counter stats "includesAlcohol") total
   ++ _logConsoleStat (tab ++ "Involved Cell Phone ")
        (counter stats "includesCellPhone") total
   ++ _logConsoleStat (tab ++ "Involved Drugs ")
        (counter stats "includesDrugs") total
   ++ _logConsoleStat (tab ++ "Property Damage")
        (counter stats "includesPropertyDamage") total
   ++ _logConsoleStat (tab ++ "With Animal")
        (counter stats "includesAnimal") total
   ++ _logConsoleStat (tab ++ "With Cyclist")
        (counter stats "includesBicycle") total)%list.

Definition hourSection (stats : Stats) : list string :=
  _logConsoleBreakdown "By Hour:" (hour (breakdowns stats))
                       (totalCrashes stats) None.

Definition displayStats (stats : Stats) : Console :=
  let b := breakdowns stats in
  let total := totalCrashes stats in
  match earliestCrashDate stats, latestCrashDate stats with
  | Some earliest, Some latest =>
      let head :=
        (_logConsoleLineDivider
         ++ [ "Disclaimer:";
              ("This analysis provides crash information for Grand Rapids between "
                 ++ Date_toLocaleDateString earliest ++ " and "
                 ++ Date_toLocaleDateString latest ++ ".")%string;
              "Data is sourced from the City of Grand Rapids, provided at https://www.grandrapidsmi.gov/GRData/Police-Data. Data is not updated live, but stored in a local file which is manually downloaded." ]
         ++ _logConsoleLineDivider
         ++ [ ("Total Crashes: " ++ Number_toString total)%string ]
         ++ _logConsoleLineDivider)%list in
      match intersectionTop10 b with
      | Some top =>
          {| lines :=
               (head
                ++ _logConsoleBreakdown "Most Dangerous Intersections:" top
                     total (Some _alphaSort)
                ++ _logConsoleLineDivider
                ++ _logConsoleBreakdown "By Type:" (type b) total
                     (Some _alphaSort)
                ++ _logConsoleLineDivider
                ++ _logConsoleBreakdown "By Severity:" (severity b) total
                     (Some _alphaSort)
                ++ _logConsoleLineDivider
                ++ _logConsoleBreakdown "By Month:" (month b) total
                     (Some (byIndexIn MONTH_CONVERSION))
                ++ _logConsoleLineDivider
                ++ _logConsoleBreakdown "By Day of Week:" (dayOfWeek b) total
                     (Some (byIndexIn DAY_OF_WEEK_CONVERSION))
                ++ _logConsoleLineDivider
                ++ hourSection stats
                ++ _logConsoleLineDivider
                ++ miscSection stats)%list;
             threw := false |}
      | None =>
          (* [Object.keys(undefined)] throws, after the title *)
          {| lines := (head ++ [ "Most Dangerous Intersections:" ])%list;
             threw := true |}
      end
  | _, _ =>
      (* [undefined.toLocaleDateString] throws, after the first divider *)
      {| lines := _logConsoleLineDivider; threw := true |}
  end.

(** ** [loadCrashData] *)

(** [header.replace(/\s/g, '')] *)
Fixpoint mapHeaders (header : string) : string :=
  match header with
  | String c r =>
      if Str.isWhiteSpace c then mapHeaders r else String c (mapHeaders r)
  | EmptyString => EmptyString
  end.

(** The location clean-up of [mapValues]. *)
Definition canonicalLocation (value : string) : string :=
  Str.join " & "
    (Arr.sort Arr.defaultCompare
       (Str.split " & " (Str.trim (Str.collapseWhiteSpace value)))).

Definition mapValues (header value : string) : Value :=
  if String.eqb header CRASH_LOCATION_HEADER then str (canonicalLocation value)
  else if String.eqb (Str.toLowerCase value) "yes" then boolean true
  else if String.eqb (Str.toLowerCase value) "no" then boolean false
  else if _isNumeric (str value) then num (ToNumber (str value))
  else str value.

(** The row object the parser builds from a line, given the raw header
    and the raw cell of each column. *)
Definition csvRow (cells : list (string * string)) : Item :=
  fold_left (fun row cell =>
               let header := mapHeaders (fst cell) in
               Obj.set row header (mapValues header (snd cell)))
            cells [].

(** The three ['error'] handlers are registered on the parser stream, so
    each of them runs on each of its errors, in the order of their
    registration; the file stream has no handler. *)
Definition emit (w : Loading) (ev : StreamEvent Error) : Loading :=
  match uncaught w with
  | Some _ => w
  | None =>
      match ev with
      | sourceError e =>
          {| results := results w; errorLog := errorLog w;
             promise := promise w; uncaught := Some e |}
      | parserError err =>
          _rejectPromiseError reject err
            "Error thrown during stream end resolution."
            (_rejectPromiseError reject err
               "Error thrown during data results aggregation."
               (_rejectPromiseError reject err "Error thrown parsing CSV." w))
      | parserData data =>
          {| results := (results w ++ [data])%list; errorLog := errorLog w;
             promise := promise w; uncaught := uncaught w |}
      | parserEnd => resolve (results w) w
      end
  end.

(** [loadCrashData(fileName)], for a file whose two streams emit [events],
    in that order. *)
Definition loadCrashData (events : list (StreamEvent Error)) : Loading :=
  fold_left emit events
    {| results := []; errorLog := []; promise := Pending; uncaught := None |}.

(** ** [main] *)

Inductive Run : Type :=
| Reported (c : Console)     (* the report was printed, or broke off *)
| Aborted (e : Error)        (* the rejection of the load left [main] *)
| Crashed (e : Error)        (* an unheard ['error'] ended the process *)
| Unsettled.                 (* the load never settled *)

(** [main()], for a data file whose two streams emit [events]. *)
Definition main (events : list (StreamEvent Error)) : Run :=
  let w := loadCrashData events in
  match uncaught w with
  | Some e => Crashed e
  | None =>
      match promise w with
      | Fulfilled data => Reported (displayStats (computeStats data))
      | Rejected e => Aborted e
      | Pending => Unsettled
      end
  end.

End Script.

(* ================================================================= *)
(** * Part III. Vocabulary of the properties *)

(** The sum of the counts of a breakdown, over [Object.values]. *)
Definition sumCounts (o : Obj.t number) : number :=
  fold_left Num.add (map snd (Obj.entries o)) (Num.ofZ 0).


(** The property name a row hands to [_incrementSummation] for each
    breakdown, and the names of the counters it raises, in the order of the
    loop body. *)
Definition typeLabel (item : Item) : Value := field item "CrashType".

Definition severityLabel (item : Item) : Value := field item "CrashSeverity".

Definition monthLabel (parse : string -> Date) (localMonth : Z -> nat)
           (item : Item) : Value :=
  at_ MONTH_CONVERSION
      (Date_getMonth localMonth (Date_new parse (field item "CrashDateandTime"))).

Definition dayOfWeekLabel (item : Item) : Value :=
  at_ DAY_OF_WEEK_CONVERSION (minus (field item "Dayoftheweek") (num (Num.ofZ 1))).

Definition hourLabel (ext : Q -> string) (item : Item) : Value :=
  num (shiftedHour ext (field item "HourofDay")).

Definition locationLabel (item : Item) : Value := field item "CrashLocation".

Definition raised (item : Item) (flag name : string) : list Value :=
  if isTrue (field item flag) then [str name] else [].

Definition counterLabels (item : Item) : list Value :=
  (raised item "PropertyDamageIndicator" "includesPropertyDamage"
   ++ raised item "AlcoholInvolved" "includesAlcohol"
   ++ raised item "AggressiveDriverInvolved" "includesAggressiveDriver"
   ++ raised item "BicycleInvolved" "includesBicycle"
   ++ raised item "CellPhoneInvolved" "includesCellPhone"
   ++ raised item "AnimalInvolved" "includesAnimal"
   ++ raised item "DrugInvolved" "includesDrugs")%list.

(** A tally: labels with the number of times each was counted, in the order
    of their first occurrence. *)
Fixpoint bump (m : list (string * nat)) (k : string) : list (string * nat) :=
  match m with
  | (k', n) :: r =>
      if String.eqb k k' then (k', S n) :: r else (k', n) :: bump r k
  | [] => [(k, 1%nat)]
  end.

Definition tally (ks : list string) : list (string * nat) :=
  fold_left bump ks [].

(** The object that stores a tally. *)
Definition counted (m : list (string * nat)) : Obj.t number :=
  map (fun kn => (fst kn, Num.ofNat (snd kn))) m.




(** A string with a code unit that is not white space. *)
Definition nonBlank (s : string) : bool :=
  negb (forallb Str.isWhiteSpace (list_ascii_of_string s)).

(** The state of [collapseFrom] holds a white-space code unit. *)
Definition pendingWhiteSpace (p : option (ascii * bool)) : Prop :=
  match p with
  | Some (c, _) => Str.isWhiteSpace c = true
  | None => True
  end.

(** What [collapseFrom] writes for the run it holds when the run ends. *)
Definition flushed (p : option (ascii * bool)) : string :=
  match p with
  | Some (_, true) => " "
  | Some (c, false) => String c EmptyString
  | None => EmptyString
  end.

(** A name as the location clean-up leaves it. *)
Definition cleaned (s : string) : string :=
  Str.trim (Str.collapseWhiteSpace s).

(** A street name, for the location clean-up: not blank, and without the
    sign that separates the two streets. *)
Definition streetName (s : string) : bool :=
  nonBlank s && negb (Str.contains "&" s).

(** The two names of a pair, in the order [sort()] gives them. *)
Definition sortedPair (a b : string) : string :=
  if Str.lt b a then b ++ " & " ++ a else a ++ " & " ++ b.

(** ** The events of a load *)

(** The events of a run up to the first error of the file stream, which no
    handler hears and which ends the run. *)
Fixpoint heard {E : Type} (events : list (StreamEvent E))
  : list (StreamEvent E) :=
  match events with
  | sourceError _ :: _ => []
  | ev :: r => ev :: heard r
  | [] => []
  end.

(** The first error of the file stream, if there is one. *)
Fixpoint firstSourceError {E : Type} (events : list (StreamEvent E))
  : option E :=
  match events with
  | sourceError e :: _ => Some e
  | _ :: r => firstSourceError r
  | [] => None
  end.

(** The errors of the parser stream, in order. *)
Definition parserErrors {E : Type} (events : list (StreamEvent E)) : list E :=
  flat_map (fun ev => match ev with parserError e => [e] | _ => [] end) events.

(** The rows of the ['data'] events, in order. *)
Definition dataRows {E : Type} (events : list (StreamEvent E)) : list Item :=
  flat_map (fun ev => match ev with parserData row => [row] | _ => [] end)
           events.

(** ** Orders and counts *)

(** [a] does not come after [b] in the code-unit order. *)
Definition notAfter (a b : string) : Prop := Str.lt b a = false.

(** [a] comes before [b] in [table]; a name that is not in the table has
    the index -1 and comes before all of the table. *)
Definition earlierIn (table : list string) (a b : string) : Prop :=
  Arr.indexOf table a < Arr.indexOf table b.

(** The object [o] holds, for every label, the number of times the label
    occurs in [labels], and no property for a label that does not occur. *)
Definition countsOf (labels : list string) (o : Obj.t number) : Prop :=
  NoDup (map fst o)
  /\ forall k, Obj.getOwn o k
               = match count_occ string_dec labels k with
                 | O => None
                 | S n => Some (Num.ofNat (S n))
                 end.

(** The flags of a row that [computeStats] counts, each with the name of
    its counter. *)
Definition involvementFlags : list (string * string) :=
  [ ("PropertyDamageIndicator", "includesPropertyDamage");
    ("AlcoholInvolved", "includesAlcohol");
    ("AggressiveDriverInvolved", "includesAggressiveDriver");
    ("BicycleInvolved", "includesBicycle");
    ("CellPhoneInvolved", "includesCellPhone");
    ("AnimalInvolved", "includesAnimal");
    ("DrugInvolved", "includesDrugs") ].

(** The number of rows whose [flag] is [true]. *)
Definition flagged (flag : string) (data : list Item) : nat :=
  List.length (filter (fun item => isTrue (field item flag)) data).

(** What [_incrementSummation] stores under a name, given what reading the
    name finds: one more than a count, 1 for a name that is not there or
    holds 0 or [NaN], and [NaN] for a name that [Object.prototype] answers
    to. *)
Definition incremented (found : Obj.slot number) : number :=
  match found with
  | Obj.Own n => if Num.truthy n then Num.add n (Num.ofZ 1) else Num.ofZ 1
  | Obj.Absent => Num.ofZ 1
  | Obj.Method _ | Obj.Prototype => NaN
  end.

(** The share of [n] in [t], in percent: [100 * n / t] as a number. *)
Definition share (n t : nat) : number :=
  match t, n with
  | O, O => NaN
  | O, S _ => Infinity false
  | S _, _ => Num.fin (Z.of_nat (100 * n) # Pos.of_nat t)
  end.

(** No two white-space code units stand side by side. *)
Fixpoint tidy (s : string) : bool :=
  match s with
  | String c r =>
      match r with
      | String d _ => negb (Str.isWhiteSpace c && Str.isWhiteSpace d)
      | EmptyString => true
      end && tidy r
  | EmptyString => true
  end.

(** ** A host and rows to run the script on *)

Module Sample.

(** A host that renders a non-integer as a fraction. *)
Definition numberToString (q : Q) : string :=
  Num.Z_to_string (Qnum q) ++ "/" ++ Num.Z_to_string (Z.pos (Qden q)).

(** A host whose [Date.parse] knows three timestamps. *)
Definition dateParse (s : string) : Date :=
  if String.eqb s "2015-01-01T05:10:00Z" then Some 1420089000000
  else if String.eqb s "2015-03-14T23:45:00Z" then Some 1426376700000
  else if String.eqb s "2016-07-04T12:00:00Z" then Some 1467633600000
  else None.

(** The civil date of a time value, in a host whose zone is UTC. *)
Definition civil (t : Z) : Z * Z * Z :=
  let z := t / 86400000 + 719468 in
  let era := z / 146097 in
  let doe := z mod 146097 in
  let yoe := (doe - doe / 1460 + doe / 36524 - doe / 146096) / 365 in
  let doy := doe - (365 * yoe + yoe / 4 - yoe / 100) in
  let mp := (5 * doy + 2) / 153 in
  let d := doy - (153 * mp + 2) / 5 + 1 in
  let m := if mp <? 10 then mp + 3 else mp - 9 in
  let y := yoe + era * 400 + (if m <=? 2 then 1 else 0) in
  (y, m, d).

Definition localMonth (t : Z) : nat :=
  let '(_, m, _) := civil t in Z.to_nat (m - 1).

Definition shortMonths : list string :=
  [ "Jan"; "Feb"; "Mar"; "Apr"; "May"; "Jun"; "Jul"; "Aug"; "Sep"; "Oct";
    "Nov"; "Dec" ].

Definition dateToLocaleDateString (d : Date) : string :=
  match d with
  | Some t =>
      let '(y, m, day) := civil t in
      nth (Z.to_nat (m - 1)) shortMonths "" ++ " " ++ Num.Z_to_string day
        ++ ", " ++ Num.Z_to_string y
  | None => "Invalid Date"
  end.

(** At most two fraction digits, without grouping: enough below 1000. *)
Definition numberToLocaleString (n : number) : string :=
  match n with
  | NaN => "NaN"
  | Infinity _ => "Infinity"
  | Finite q =>
      let h := Z.abs (Qnum q) * 200 / Z.pos (Qden q) in
      let r := (h + 1) / 2 in
      let frac := r mod 100 in
      (if Qnum q <? 0 then "-" else "") ++ Num.Z_to_string (r / 100)
        ++ (if frac =? 0 then ""
            else if frac mod 10 =? 0 then "." ++ Num.Z_to_string (frac / 10)
            else if frac <? 10 then ".0" ++ Num.Z_to_string frac
            else "." ++ Num.Z_to_string frac)
  end.

(** A row of the file, by its cells. *)
Definition row (date type severity day hour location alcohol : string)
  : Item :=
  csvRow [ ("Crash Date and Time", date); ("Crash Type", type);
           ("Crash Severity", severity); ("Day of the week", day);
           ("Hour of Day", hour); ("Crash Location", location);
           ("Alcohol Involved", alcohol) ].

(** Three crashes, two of them at one intersection. *)
Definition three : list Item :=
  [ row "2015-01-01T05:10:00Z" "T1" "S1" "1" "4" "B & A" "Yes";
    row "2015-03-14T23:45:00Z" "T1" "S2" "1" "4" "A & B" "No";
    row "2016-07-04T12:00:00Z" "T2" "S1" "2" "3" "C & D" "no" ].

(** Crashes whose type is spelled like a member of [Object.prototype]. *)
Definition ofTypeConstructor : Item :=
  row "2015-01-01T05:10:00Z" "constructor" "S1" "1" "4" "A & B" "No".

Definition ofTypeProto : Item :=
  row "2015-03-14T23:45:00Z" "__proto__" "S1" "1" "4" "A & B" "No".

Definition ofTypeT1 : Item :=
  row "2016-07-04T12:00:00Z" "T1" "S1" "1" "4" "A & B" "No".

(** A crash whose timestamp the host cannot parse. *)
Definition undated : Item := row "n/a" "T1" "S1" "1" "4" "A & B" "No".


(** The three crashes with the first two in the other order. *)
Definition swapped : list Item :=
  [ row "2015-03-14T23:45:00Z" "T1" "S2" "1" "4" "A & B" "No";
    row "2015-01-01T05:10:00Z" "T1" "S1" "1" "4" "B & A" "Yes";
    row "2016-07-04T12:00:00Z" "T2" "S1" "2" "3" "C & D" "no" ].

Definition computeStats : list Item -> Stats :=
  computeStats numberToString dateParse localMonth.

Definition displayStats : Stats -> Console :=
  displayStats numberToString numberToLocaleString dateToLocaleDateString.

End Sample.

(* ================================================================= *)
(** * Part IV. Properties *)

(* ----------------------------------------------------------------- *)
(** ** Appending strings *)

Lemma app_assoc_s (a b c : string) : ((a ++ b) ++ c = a ++ (b ++ c))%string.
Proof. induction a as [|x a IH]; cbn; [reflexivity | now rewrite IH]. Qed.

Lemma app_nil_r_s (a : string) : (a ++ "")%string = a.
Proof. induction a as [|x a IH]; cbn; [reflexivity | now rewrite IH]. Qed.

(* ----------------------------------------------------------------- *)
(** ** Integer arithmetic on numbers *)

Lemma Qred_inject_Z (z : Z) : Qred (inject_Z z) = inject_Z z.
Proof.
  pose proof (Qred_correct (inject_Z z)) as E.
  pose proof (gcd_Qred (inject_Z z)) as G.
  destruct (Qred (inject_Z z)) as [a b].
  unfold Qeq, inject_Z in *; cbn [Qnum Qden] in *.
  assert (Hb : Z.pos b = 1).
  { assert (D : (Z.pos b | a)) by (exists z; lia).
    assert (D' : (Z.pos b | Z.gcd a (Z.pos b))) by
        (apply Z.gcd_greatest; [exact D | apply Z.divide_refl]).
    rewrite G in D'. apply Z.divide_1_r_nonneg in D'; lia. }
  injection Hb as ->. f_equal. lia.
Qed.

Lemma add_ofZ (a b : Z) : Num.add (Num.ofZ a) (Num.ofZ b) = Num.ofZ (a + b).
Proof.
  unfold Num.add, Num.ofZ, Num.fin. f_equal.
  rewrite <- (Qred_inject_Z (a + b)). apply Qred_complete.
  unfold Qeq, inject_Z, Qplus; cbn [Qnum Qden]. lia.
Qed.

Lemma sub_ofZ (a b : Z) : Num.sub (Num.ofZ a) (Num.ofZ b) = Num.ofZ (a - b).
Proof.
  unfold Num.sub, Num.neg, Num.ofZ, Num.fin.
  replace (Qred (- inject_Z b)) with (inject_Z (- b)).
  - apply (add_ofZ a (- b)).
  - rewrite <- (Qred_inject_Z (- b)). apply Qred_complete.
    unfold Qeq, inject_Z, Qopp; cbn [Qnum Qden]. lia.
Qed.

Lemma sign_inject_Z (z : Z) : Num.sign (inject_Z z) = (z ?= 0).
Proof.
  unfold Num.sign, Qcompare, inject_Z; cbn [Qnum Qden].
  now rewrite Z.mul_1_r.
Qed.

Lemma lt_ofZ (a b : Z) : Num.lt (Num.ofZ a) (Num.ofZ b) = (a <? b).
Proof.
  unfold Num.lt, Num.ofZ, Qcompare, inject_Z; cbn [Qnum Qden].
  rewrite !Z.mul_1_r. unfold Z.ltb. now destruct (a ?= b).
Qed.

Lemma truthy_ofZ (z : Z) : Num.truthy (Num.ofZ z) = negb (z =? 0).
Proof.
  unfold Num.truthy, Num.ofZ. rewrite sign_inject_Z.
  destruct (Z.compare_spec z 0) as [->| |]; try reflexivity;
    symmetry; apply negb_true_iff, Z.eqb_neq; lia.
Qed.

Lemma rem_ofZ (a b : Z) :
  b <> 0 -> Num.rem (Num.ofZ a) (Num.ofZ b) = Num.ofZ (Z.rem a b).
Proof.
  intros Hb. unfold Num.rem, Num.ofZ. rewrite sign_inject_Z.
  assert (E : Num.fin
                (inject_Z a - inject_Z b *
                   inject_Z (Qnum (inject_Z a / inject_Z b)
                             ÷ Z.pos (Qden (inject_Z a / inject_Z b))))
              = Finite (inject_Z (Z.rem a b))).
  { unfold Num.fin. f_equal.
    rewrite <- (Qred_inject_Z (Z.rem a b)). apply Qred_complete.
    assert (Q : Qnum (inject_Z a / inject_Z b)
                ÷ Z.pos (Qden (inject_Z a / inject_Z b)) = a ÷ b).
    { unfold Qdiv, Qmult, Qinv, inject_Z; cbn [Qnum Qden].
      destruct b as [|p|p]; [contradiction| |]; cbn [Qnum Qden].
      - rewrite Z.mul_1_r, Pos.mul_1_l. reflexivity.
      - rewrite Pos.mul_1_l.
        change (Z.neg 1) with (- (1)).
        rewrite Z.mul_opp_r, Z.mul_1_r, Z.quot_opp_l by lia.
        change (Z.neg p) with (- Z.pos p).
        rewrite Z.quot_opp_r by lia. reflexivity. }
    rewrite Q. rewrite (Z.rem_eq a b Hb).
    unfold Qeq, Qminus, Qplus, Qopp, Qmult, inject_Z; cbn [Qnum Qden]. lia. }
  destruct (b ?= 0) eqn:C; [apply Z.compare_eq in C; contradiction | exact E | exact E].
Qed.

(* ----------------------------------------------------------------- *)
(** ** The shifted hour *)

Lemma shiftedHour_ofZ (ext : Q -> string) (h : Z) :
  shiftedHour ext (num (Num.ofZ h)) = Num.ofZ (Z.rem (h + 4) 24).
Proof.
  unfold shiftedHour, modulo, plus. cbn [ToNumber].
  rewrite add_ofZ. apply rem_ofZ. discriminate.
Qed.

Lemma ofZ_inj (a b : Z) : Num.ofZ a = Num.ofZ b -> a = b.
Proof. unfold Num.ofZ, inject_Z. congruence. Qed.

(** C2 (amended).  On the hours 0..23 the shifted hour is
    [(hourOfDay + 4) mod 24]; every bucket of 0..23 is the image of
    exactly one hour of 0..23; hour 0 goes to bucket 4, hour 4 to bucket 8
    and hour 3 to bucket 7, while bucket 0 comes from hour 20 and bucket 23
    from hour 19. *)
Theorem shiftedHour_bijection (ext : Q -> string) :
  (forall h, 0 <= h <= 23 ->
     shiftedHour ext (num (Num.ofZ h)) = Num.ofZ ((h + 4) mod 24)
     /\ 0 <= (h + 4) mod 24 <= 23)
  /\ (forall b, 0 <= b <= 23 ->
        exists h, 0 <= h <= 23
                  /\ shiftedHour ext (num (Num.ofZ h)) = Num.ofZ b
                  /\ forall h', 0 <= h' <= 23 ->
                       shiftedHour ext (num (Num.ofZ h')) = Num.ofZ b -> h' = h)
  /\ shiftedHour ext (num (Num.ofZ 0)) = Num.ofZ 4
  /\ shiftedHour ext (num (Num.ofZ 4)) = Num.ofZ 8
  /\ shiftedHour ext (num (Num.ofZ 3)) = Num.ofZ 7
  /\ shiftedHour ext (num (Num.ofZ 20)) = Num.ofZ 0
  /\ shiftedHour ext (num (Num.ofZ 19)) = Num.ofZ 23.
Proof.
  assert (F : forall h, 0 <= h <= 23 ->
                shiftedHour ext (num (Num.ofZ h)) = Num.ofZ ((h + 4) mod 24)).
  { intros h Hh. rewrite shiftedHour_ofZ. f_equal.
    apply Z.rem_mod_nonneg; lia. }
  split; [| split; [| repeat split; apply shiftedHour_ofZ]].
  - intros h Hh. split; [now apply F |].
    pose proof (Z.mod_pos_bound (h + 4) 24). lia.
  - intros b Hb. exists ((b + 20) mod 24).
    pose proof (Z.mod_pos_bound (b + 20) 24) as B.
    split; [lia | split].
    + rewrite F by lia. f_equal.
      rewrite Zplus_mod_idemp_l. replace (b + 20 + 4) with (b + 1 * 24) by lia.
      rewrite Z_mod_plus_full. apply Z.mod_small. lia.
    + intros h' Hh' E. rewrite F in E by lia. apply ofZ_inj in E. subst b.
      rewrite Zplus_mod_idemp_l.
      replace (h' + 4 + 20) with (h' + 1 * 24) by lia.
      rewrite Z_mod_plus_full. symmetry. apply Z.mod_small. lia.
Qed.

(* ----------------------------------------------------------------- *)
(** ** Errors while loading *)

Lemma loadCrashData_data (Error : Type) (rows : list Item) (w : Loading Error) :
  uncaught Error w = None ->
  fold_left (emit Error) (map parserData rows) w =
    {| results := (results Error w ++ rows)%list;
       errorLog := errorLog Error w;
       promise := promise Error w;
       uncaught := None |}.
Proof.
  revert w. induction rows as [|r rows IH]; intros w U; cbn [map fold_left].
  - rewrite app_nil_r. destruct w; cbn in *; congruence.
  - assert (E : emit Error w (parserData r) =
                  {| results := (results Error w ++ [r])%list;
                     errorLog := errorLog Error w;
                     promise := promise Error w; uncaught := None |}).
    { unfold emit. rewrite U. reflexivity. }
    rewrite E, IH by reflexivity. cbn. now rewrite <- app_assoc.
Qed.

(** C3.  When the parser emits an error after any rows, each of the three
    handlers logs the error itself and the promise is rejected with the
    error itself: the context message of a handler reaches neither, and
    [_rejectPromiseError] does the same whatever message it is given.  The
    run ends without a report.  An error of the file stream is heard by no
    handler: the promise stays pending and the error ends the run. *)
Theorem rejection_carries_no_context
        (ext : Q -> string) (parse : string -> Date) (localMonth : Z -> nat)
        (toLocale : number -> string) (toLocaleDate : Date -> string)
        (Error : Type) (rows : list Item) (e : Error) :
  loadCrashData Error (map parserData rows ++ [parserError e]) =
    {| results := rows; errorLog := [e; e; e];
       promise := Rejected e; uncaught := None |}
  /\ (forall rej (c1 c2 : string) (w : Loading Error),
        _rejectPromiseError Error rej e c1 w = _rejectPromiseError Error rej e c2 w)
  /\ main ext parse localMonth toLocale toLocaleDate Error
          (map parserData rows ++ [parserError e]) = Aborted Error e
  /\ loadCrashData Error (map parserData rows ++ [sourceError e]) =
       {| results := rows; errorLog := [];
          promise := Pending; uncaught := Some e |}
  /\ main ext parse localMonth toLocale toLocaleDate Error
          (map parserData rows ++ [sourceError e]) = Crashed Error e.
Proof.
  assert (L : forall ev,
             loadCrashData Error (map parserData rows ++ [ev]) =
               emit Error {| results := rows; errorLog := [];
                             promise := Pending; uncaught := None |} ev).
  { intros ev. unfold loadCrashData.
    rewrite fold_left_app, loadCrashData_data by reflexivity. reflexivity. }
  repeat split.
  - rewrite L. reflexivity.
  - unfold main. rewrite L. reflexivity.
  - rewrite L. reflexivity.
  - unfold main. rewrite L. reflexivity.
Qed.

(* ----------------------------------------------------------------- *)
(** ** The field normaliser *)


(* ----------------------------------------------------------------- *)
(** ** The misc section of the report *)

(** C8.  A counter that the statistics object does not have is printed as
    the text [undefined], with the percentage the host prints for [NaN];
    no 0 is printed in its place.  For the three sample crashes, where
    only alcohol was counted, six of the seven lines of the misc section
    read so. *)
Theorem absent_counter_renders_undefined
        (ext : Q -> string) (parse : string -> Date) (localMonth : Z -> nat)
        (toLocale : number -> string) :
  (forall title total,
     _logConsoleStat ext toLocale title Obj.Absent total =
       [ title ++ " - undefined (" ++ toLocale NaN ++ "%)" ])
  /\ counter (computeStats ext parse localMonth Sample.three) "includesAnimal"
     = Obj.Absent
  /\ miscSection ext toLocale (computeStats ext parse localMonth Sample.three) =
       [ "By Misc:";
         tab ++ "Aggressive Driving - undefined (" ++ toLocale NaN ++ "%)";
         tab ++ "Involved Alcohol  - 1 (" ++ toLocale (Num.fin (100 # 3)) ++ "%)";
         tab ++ "Involved Cell Phone  - undefined (" ++ toLocale NaN ++ "%)";
         tab ++ "Involved Drugs  - undefined (" ++ toLocale NaN ++ "%)";
         tab ++ "Property Damage - undefined (" ++ toLocale NaN ++ "%)";
         tab ++ "With Animal - undefined (" ++ toLocale NaN ++ "%)";
         tab ++ "With Cyclist - undefined (" ++ toLocale NaN ++ "%)" ].
Proof.
  split; [| split].
  - intros title total. unfold _logConsoleStat, _convertToPercentString.
    cbn. now rewrite app_assoc_s.
  - reflexivity.
  - unfold miscSection, counter.
    replace (counters (computeStats ext parse localMonth Sample.three))
      with [("includesAlcohol", Num.ofZ 1)] by reflexivity.
    replace (totalCrashes (computeStats ext parse localMonth Sample.three))
      with (Num.ofZ 3) by reflexivity.
    unfold _logConsoleStat, _convertToPercentString.
    cbn. rewrite !app_assoc_s. reflexivity.
Qed.

(* ----------------------------------------------------------------- *)
(** ** The earliest and the latest crash *)

Section CrashDates.
Variable ext : Q -> string.
Variable parse : string -> Date.
Variable localMonth : Z -> nat.

Local Abbreviation crashDate item :=
  (Date_new parse (field item "CrashDateandTime")).
Local Abbreviation visit := (visit ext parse localMonth).

Lemma earliest_visit (s : Stats) (item : Item) :
  earliestCrashDate (visit s item) =
    match earliestCrashDate s with
    | None => Some (crashDate item)
    | Some e => if Date_lt (crashDate item) e then Some (crashDate item)
                else Some e
    end.
Proof. reflexivity. Qed.

Lemma latest_visit (s : Stats) (item : Item) :
  latestCrashDate (visit s item) =
    match latestCrashDate s with
    | None => Some (crashDate item)
    | Some l => if Date_lt l (crashDate item) then Some (crashDate item)
                else Some l
    end.
Proof. reflexivity. Qed.

Lemma totalCrashes_fold (data : list Item) (s : Stats) :
  totalCrashes (fold_left visit data s) = totalCrashes s.
Proof.
  revert s. induction data as [|item data IH]; intros s; cbn [fold_left].
  - reflexivity.
  - now rewrite IH.
Qed.

(** Once both dates are valid, a pass over rows with valid dates keeps
    them valid, moves the earliest down and the latest up, and leaves
    every row between them. *)
Lemma dates_fold (data : list Item) :
  forall (s : Stats) (e l : Z),
    earliestCrashDate s = Some (Some e) ->
    latestCrashDate s = Some (Some l) ->
    Forall (fun item => crashDate item <> None) data ->
    exists e' l',
      earliestCrashDate (fold_left visit data s) = Some (Some e')
      /\ latestCrashDate (fold_left visit data s) = Some (Some l')
      /\ e' <= e /\ l <= l'
      /\ Forall (fun item => exists t, crashDate item = Some t /\ e' <= t <= l')
                data
      /\ (e' = e \/ In (Some e') (map (fun item => crashDate item) data))
      /\ (l' = l \/ In (Some l') (map (fun item => crashDate item) data)).
Proof.
  induction data as [|item data IH]; intros s e l He Hl V; cbn [fold_left].
  - exists e, l. repeat split; auto; lia.
  - inversion V as [|? ? Vi Vd]; subst.
    destruct (crashDate item) as [t|] eqn:D; [|contradiction].
    destruct (IH (visit s item) (Z.min t e) (Z.max l t)) as
      (e' & l' & E' & L' & Le & Ll & F & Ae & Al); auto.
    + rewrite earliest_visit, He, D. cbn [Date_lt].
      destruct (Z.ltb_spec t e); do 2 f_equal; lia.
    + rewrite latest_visit, Hl, D. cbn [Date_lt].
      destruct (Z.ltb_spec l t); do 2 f_equal; lia.
    + exists e', l'. split; [exact E' | split; [exact L' |]].
      split; [lia | split; [lia |]].
      split; [| split].
      * constructor; [exists t; split; [exact D | lia] | exact F].
      * cbn [map In]. rewrite D.
        destruct Ae as [->|Ae]; [| now right; right].
        destruct (Z.min_spec t e) as [[_ ->]|[_ ->]]; [right; left|left];
          reflexivity.
      * cbn [map In]. rewrite D.
        destruct Al as [->|Al]; [| now right; right].
        destruct (Z.max_spec l t) as [[_ ->]|[_ ->]]; [right; left|left];
          reflexivity.
Qed.

End CrashDates.

(** C5 (amended).  When every row has a valid crash date: after
    [computeStats] on a non-empty sequence both dates are set and valid,
    the earliest is at most the date of every row, which is at most the
    latest, so the earliest is at most the latest, and each of the two is
    the date of some row; on the empty sequence both dates are left
    undefined and [totalCrashes] is 0. *)
Theorem crash_dates_bound_every_crash
        (ext : Q -> string) (parse : string -> Date) (localMonth : Z -> nat)
        (data : list Item) :
  Forall (fun item => Date_new parse (field item "CrashDateandTime") <> None)
         data ->
  (data = [] ->
     earliestCrashDate (computeStats ext parse localMonth data) = None
     /\ latestCrashDate (computeStats ext parse localMonth data) = None
     /\ totalCrashes (computeStats ext parse localMonth data) = Num.ofZ 0)
  /\ (data <> [] ->
      exists e l,
        earliestCrashDate (computeStats ext parse localMonth data) = Some (Some e)
        /\ latestCrashDate (computeStats ext parse localMonth data) = Some (Some l)
        /\ e <= l
        /\ Forall (fun item =>
                     exists t, Date_new parse (field item "CrashDateandTime")
                               = Some t /\ e <= t <= l) data
        /\ In (Some e)
              (map (fun item => Date_new parse (field item "CrashDateandTime"))
                   data)
        /\ In (Some l)
              (map (fun item => Date_new parse (field item "CrashDateandTime"))
                   data)).
Proof.
  intros V. split.
  - intros ->. repeat split.
  - intros NE. destruct data as [|item data]; [congruence |].
    inversion V as [|? ? Vi Vd]; subst.
    destruct (Date_new parse (field item "CrashDateandTime")) as [t|] eqn:D;
      [| contradiction].
    unfold computeStats.
    cbn [earliestCrashDate latestCrashDate fold_left].
    destruct (dates_fold ext parse localMonth data
                (visit ext parse localMonth (newStats (item :: data)) item) t t)
      as (e & l & E & L & Le & Ll & F & Ae & Al); auto.
    + rewrite earliest_visit. cbn. now rewrite D.
    + rewrite latest_visit. cbn. now rewrite D.
    + exists e, l. split; [exact E | split; [exact L |]].
      split; [lia | split; [| split]].
      * constructor; [exists t; split; [exact D | lia] | exact F].
      * cbn [map In]. rewrite D. destruct Ae as [->|Ae]; [now left | now right].
      * cbn [map In]. rewrite D. destruct Al as [->|Al]; [now left | now right].
Qed.

(* ----------------------------------------------------------------- *)
(** ** Own properties and [Object.keys] *)

Section OwnProperties.
Context {A : Type}.
Implicit Types (o : Obj.t A) (k : string).

Lemma getOwn_In o k v : Obj.getOwn o k = Some v -> In (k, v) o.
Proof.
  induction o as [|[k' v'] o IH]; cbn; [discriminate |].
  destruct (String.eqb_spec k k') as [->|N].
  - intros [= ->]. now left.
  - intros H. right. now apply IH.
Qed.

Lemma getOwn_None o k : Obj.getOwn o k = None <-> ~ In k (map fst o).
Proof.
  induction o as [|[k' v'] o IH]; cbn.
  - tauto.
  - destruct (String.eqb_spec k k') as [->|N].
    + split; [discriminate | intros H; exfalso; apply H; now left].
    + rewrite IH. split; [intros H [E|I]; [congruence | tauto] | tauto].
Qed.

Lemma getOwn_NoDup o k v :
  NoDup (map fst o) -> In (k, v) o -> Obj.getOwn o k = Some v.
Proof.
  induction o as [|[k' v'] o IH]; cbn; [tauto |].
  intros ND [E|I].
  - injection E as -> ->. now rewrite String.eqb_refl.
  - inversion ND as [|? ? NI ND']; subst.
    destruct (String.eqb_spec k k') as [->|N].
    + exfalso. apply NI. now apply (in_map fst) in I.
    + now apply IH.
Qed.

Lemma replaceOwn_keys o k v : map fst (Obj.replaceOwn o k v) = map fst o.
Proof.
  induction o as [|[k' v'] o IH]; cbn; [reflexivity |].
  destruct (String.eqb k k'); cbn; [reflexivity | now rewrite IH].
Qed.

Lemma insertIndex_perm x l : Permutation (Obj.insertIndex x l) (x :: l).
Proof.
  induction l as [|y l IH]; cbn; [reflexivity |].
  destruct (fst y <? fst x); [| reflexivity].
  rewrite IH. apply perm_swap.
Qed.

Lemma sortIndices_perm l : Permutation (Obj.sortIndices l) l.
Proof.
  induction l as [|x l IH]; cbn; [reflexivity |].
  now rewrite insertIndex_perm, IH.
Qed.

Lemma indexKeys_names ks :
  Permutation (map snd (Obj.indexKeys ks) ++ filter Obj.isName ks) ks.
Proof.
  induction ks as [|k ks IH]; cbn; [reflexivity |].
  unfold Obj.isName at 1. destruct (Obj.arrayIndex k); cbn.
  - now constructor.
  - rewrite <- Permutation_middle. now constructor.
Qed.

Lemma keys_perm o : Permutation (Obj.keys o) (map fst o).
Proof.
  unfold Obj.keys.
  apply Permutation_trans with
    (map snd (Obj.indexKeys (map fst o)) ++ filter Obj.isName (map fst o))%list.
  - apply Permutation_app_tail, Permutation_map, sortIndices_perm.
  - apply indexKeys_names.
Qed.




Lemma entries_of_keys o (l : list (string * A)) :
  (forall kv, In kv l -> Obj.getOwn o (fst kv) = Some (snd kv)) ->
  flat_map (fun k => match Obj.getOwn o k with
                     | Some v => [(k, v)]
                     | None => []
                     end) (map fst l) = l.
Proof.
  induction l as [|[k v] l IH]; cbn; [reflexivity |].
  intros H. pose proof (H (k, v) (or_introl eq_refl)) as Hk.
  cbn [fst snd] in Hk. rewrite Hk. cbn. f_equal.
  apply IH. intros kv I. apply H. now right.
Qed.


Lemma entries_perm o : NoDup (map fst o) -> Permutation (Obj.entries o) o.
Proof.
  intros ND. unfold Obj.entries.
  pose proof (entries_of_keys o o) as E.
  rewrite <- E at 2 by (intros [k v] I; now apply getOwn_NoDup).
  apply Permutation_flat_map, keys_perm.
Qed.

End OwnProperties.

(* ----------------------------------------------------------------- *)
(** ** Tallies *)

Lemma bump_found (m : list (string * nat)) (k : string) (n : nat) :
  Obj.getOwn m k = Some n -> bump m k = Obj.replaceOwn m k (S n).
Proof.
  induction m as [|[k' n'] m IH]; cbn; [discriminate |].
  destruct (String.eqb k k').
  - now intros [= ->].
  - intros H. now rewrite IH.
Qed.

Lemma bump_fresh (m : list (string * nat)) (k : string) :
  Obj.getOwn m k = None -> bump m k = (m ++ [(k, 1%nat)])%list.
Proof.
  induction m as [|[k' n'] m IH]; cbn; [reflexivity |].
  destruct (String.eqb k k'); [discriminate |].
  intros H. now rewrite IH.
Qed.

Lemma bump_keys (m : list (string * nat)) (k : string) :
  map fst (bump m k) =
    if existsb (String.eqb k) (map fst m) then map fst m
    else (map fst m ++ [k])%list.
Proof.
  induction m as [|[k' n'] m IH]; cbn; [reflexivity |].
  destruct (String.eqb k k'); cbn; [reflexivity |].
  rewrite IH. now destruct (existsb (String.eqb k) (map fst m)).
Qed.

Lemma existsb_eqb_In (k : string) (l : list string) :
  existsb (String.eqb k) l = true <-> In k l.
Proof.
  rewrite existsb_exists. split.
  - intros (x & I & E). apply String.eqb_eq in E. now subst.
  - intros I. exists k. split; [exact I | apply String.eqb_refl].
Qed.

Lemma bump_NoDup (m : list (string * nat)) (k : string) :
  NoDup (map fst m) -> NoDup (map fst (bump m k)).
Proof.
  intros ND. rewrite bump_keys.
  destruct (existsb (String.eqb k) (map fst m)) eqn:E; [exact ND |].
  apply NoDup_app; [exact ND | repeat constructor; intros [] |].
  intros x I [<-|[]]. apply existsb_eqb_In in I. congruence.
Qed.

Lemma bump_positive (m : list (string * nat)) (k : string) :
  Forall (fun kn => (1 <= snd kn)%nat) m ->
  Forall (fun kn => (1 <= snd kn)%nat) (bump m k).
Proof.
  induction m as [|[k' n'] m IH]; cbn; intros P.
  - repeat constructor.
  - inversion P; subst. destruct (String.eqb k k'); constructor; cbn in *;
      auto; lia.
Qed.

Lemma bump_total (m : list (string * nat)) (k : string) :
  list_sum (map snd (bump m k)) = S (list_sum (map snd m)).
Proof.
  unfold list_sum. induction m as [|[k' n'] m IH]; cbn; [reflexivity |].
  destruct (String.eqb k k'); cbn; [reflexivity |]. rewrite IH. lia.
Qed.

Lemma bump_In (m : list (string * nat)) (k k' : string) :
  In k' (map fst (bump m k)) <-> k' = k \/ In k' (map fst m).
Proof.
  rewrite bump_keys.
  destruct (existsb (String.eqb k) (map fst m)) eqn:E.
  - apply existsb_eqb_In in E. split; [tauto | intros [->|I]; assumption].
  - rewrite in_app_iff. cbn. intuition congruence.
Qed.

(** The count a tally stores for a label, 0 for a label it does not have. *)
Lemma bump_count (m : list (string * nat)) (k k' : string) :
  match Obj.getOwn (bump m k) k' with Some n => n | None => O end =
    ((if String.eqb k' k then 1 else 0)
     + match Obj.getOwn m k' with Some n => n | None => O end)%nat.
Proof.
  induction m as [|[k0 n0] m IH]; cbn.
  - destruct (String.eqb k' k); reflexivity.
  - destruct (String.eqb_spec k k0) as [->|N]; cbn.
    + destruct (String.eqb k' k0); reflexivity.
    + destruct (String.eqb_spec k' k0) as [->|N'].
      * destruct (String.eqb_spec k0 k); [congruence | reflexivity].
      * exact IH.
Qed.

Lemma tally_from (ks : list string) :
  forall m,
    NoDup (map fst m) -> Forall (fun kn => (1 <= snd kn)%nat) m ->
    NoDup (map fst (fold_left bump ks m))
    /\ Forall (fun kn => (1 <= snd kn)%nat) (fold_left bump ks m)
    /\ list_sum (map snd (fold_left bump ks m))
       = (List.length ks + list_sum (map snd m))%nat
    /\ (forall k, In k (map fst (fold_left bump ks m))
                  <-> In k ks \/ In k (map fst m))
    /\ (forall k, match Obj.getOwn (fold_left bump ks m) k with
                  | Some n => n
                  | None => O
                  end
                  = (count_occ string_dec ks k
                     + match Obj.getOwn m k with Some n => n | None => O end)%nat).
Proof.
  induction ks as [|k0 ks IH]; intros m ND P; cbn [fold_left].
  - repeat split; auto; cbn; tauto.
  - destruct (IH (bump m k0)) as (A & B & C & D & E);
      [now apply bump_NoDup | now apply bump_positive |].
    split; [exact A | split; [exact B | split; [| split]]].
    + rewrite C, bump_total. cbn. lia.
    + intros k. rewrite D, bump_In. cbn. intuition.
    + intros k. rewrite E, bump_count. cbn [count_occ].
      destruct (string_dec k0 k) as [->|N].
      * rewrite String.eqb_refl. lia.
      * destruct (String.eqb_spec k k0); [congruence | lia].
Qed.

(** What a tally is: its labels are distinct, they are the labels counted,
    each with the number of its occurrences, which is at least 1, and the
    counts add up to the number of labels counted. *)
Lemma tally_spec (ks : list string) :
  NoDup (map fst (tally ks))
  /\ Forall (fun kn => (1 <= snd kn)%nat) (tally ks)
  /\ list_sum (map snd (tally ks)) = List.length ks
  /\ (forall k, In k (map fst (tally ks)) <-> In k ks)
  /\ (forall k n, In (k, n) (tally ks) -> n = count_occ string_dec ks k).
Proof.
  unfold tally.
  destruct (tally_from ks []) as (A & B & C & D & E);
    [constructor | constructor |].
  split; [exact A | split; [exact B | split; [| split]]].
  - rewrite C. cbn. lia.
  - intros k. rewrite D. cbn. tauto.
  - intros k n I. specialize (E k). cbn in E. rewrite Nat.add_0_r in E.
    rewrite (getOwn_NoDup _ k n A I) in E. exact E.
Qed.

(* ----------------------------------------------------------------- *)
(** ** Counting into an object *)

Lemma getOwn_counted (m : list (string * nat)) (k : string) :
  Obj.getOwn (counted m) k = option_map Num.ofNat (Obj.getOwn m k).
Proof.
  induction m as [|[k' n'] m IH]; cbn; [reflexivity |].
  destruct (String.eqb k k'); [reflexivity | exact IH].
Qed.

Lemma replaceOwn_counted (m : list (string * nat)) (k : string) (n : nat) :
  Obj.replaceOwn (counted m) k (Num.ofNat n) = counted (Obj.replaceOwn m k n).
Proof.
  unfold counted. induction m as [|[k' n'] m IH]; cbn; [reflexivity |].
  destruct (String.eqb k k'); cbn; [reflexivity | now rewrite IH].
Qed.

Lemma counted_keys (m : list (string * nat)) : map fst (counted m) = map fst m.
Proof. unfold counted. rewrite map_map. reflexivity. Qed.

Lemma inherited_get {A : Type} (o : Obj.t A) (k : string) :
  Obj.inherited k = false -> Obj.getOwn o k = None -> Obj.get o k = Obj.Absent.
Proof.
  unfold Obj.inherited, Obj.get. intros I ->.
  apply orb_false_iff in I as [-> ->]. reflexivity.
Qed.

Lemma inherited_set {A : Type} (o : Obj.t A) (k : string) (v : A) :
  Obj.inherited k = false -> Obj.getOwn o k = None ->
  Obj.set o k v = (o ++ [(k, v)])%list.
Proof.
  unfold Obj.inherited, Obj.set. intros I ->.
  apply orb_false_iff in I as [_ ->]. reflexivity.
Qed.

Section Counting.
Variable ext : Q -> string.

Local Abbreviation key v := (ToPropertyKey ext v).
Local Abbreviation increment := (_incrementSummation ext).

(** On an object that stores a tally, [_incrementSummation] with a name
    that [Object.prototype] does not answer to counts the name once more. *)
Lemma increment_counted (m : list (string * nat)) (v : Value) :
  Obj.inherited (key v) = false ->
  Forall (fun kn => (1 <= snd kn)%nat) m ->
  increment (counted m) v = counted (bump m (key v)).
Proof.
  intros I P. unfold _incrementSummation.
  destruct (Obj.getOwn m (key v)) as [n|] eqn:G.
  - assert (Hn : (1 <= n)%nat).
    { apply getOwn_In in G. rewrite Forall_forall in P. apply (P _ G). }
    assert (Gc : Obj.get (counted m) (key v) = Obj.Own (Num.ofNat n)).
    { unfold Obj.get. now rewrite getOwn_counted, G. }
    rewrite Gc. cbn [slotToBoolean slotToNumber].
    unfold Num.ofNat at 1. rewrite truthy_ofZ.
    replace (Z.of_nat n =? 0) with false by (symmetry; apply Z.eqb_neq; lia).
    cbn [negb]. unfold Num.ofNat. rewrite add_ofZ.
    replace (Z.of_nat n + 1) with (Z.of_nat (S n)) by lia.
    unfold Obj.set. rewrite getOwn_counted, G. cbn [option_map].
    rewrite (bump_found _ _ _ G). apply (replaceOwn_counted m (key v) (S n)).
  - assert (Gc : Obj.getOwn (counted m) (key v) = None)
      by now rewrite getOwn_counted, G.
    rewrite (inherited_get _ _ I Gc). cbn [slotToBoolean negb].
    rewrite (inherited_set _ _ _ I Gc), (bump_fresh _ _ G).
    unfold counted. rewrite map_app. reflexivity.
Qed.

Lemma increment_fold (vs : list Value) :
  forall m,
    Forall (fun v => Obj.inherited (key v) = false) vs ->
    Forall (fun kn => (1 <= snd kn)%nat) m ->
    fold_left increment vs (counted m) =
      counted (fold_left bump (map (fun v => key v) vs) m).
Proof.
  induction vs as [|v vs IH]; intros m I P; cbn [fold_left map].
  - reflexivity.
  - inversion I; subst. rewrite increment_counted by assumption.
    apply IH; [assumption | now apply bump_positive].
Qed.

(** A breakdown filled from the empty object stores the tally of the names
    it was given, when [Object.prototype] answers to none of them. *)
Lemma increment_tally (vs : list Value) :
  Forall (fun v => Obj.inherited (key v) = false) vs ->
  fold_left increment vs [] = counted (tally (map (fun v => key v) vs)).
Proof.
  intros I. apply (increment_fold vs [] I). constructor.
Qed.

End Counting.

Lemma fold_add_counted (m : list (string * nat)) (a : Z) :
  fold_left Num.add (map snd (counted m)) (Num.ofZ a) =
    Num.ofZ (a + Z.of_nat (list_sum (map snd m))).
Proof.
  unfold list_sum, counted. revert a.
  induction m as [|[k n] m IH]; intros a; cbn [map fold_left fold_right snd fst].
  - f_equal. lia.
  - unfold Num.ofNat at 2. rewrite add_ofZ, IH. f_equal. lia.
Qed.

Lemma list_sum_perm (l l' : list nat) :
  Permutation l l' -> list_sum l = list_sum l'.
Proof.
  unfold list_sum. induction 1; cbn; lia.
Qed.

(** The counts of an object that stores a tally add up to the total of the
    tally. *)
Lemma sumCounts_counted (m : list (string * nat)) :
  NoDup (map fst m) ->
  sumCounts (counted m) = Num.ofNat (list_sum (map snd m)).
Proof.
  intros ND. unfold sumCounts.
  assert (P : Permutation (Obj.entries (counted m)) (counted m))
    by (apply entries_perm; now rewrite counted_keys).
  apply Permutation_map_inv in P as (m' & E & P).
  fold (counted m') in E. rewrite E, fold_add_counted. unfold Num.ofNat.
  f_equal. cbn. f_equal.
  apply list_sum_perm, Permutation_map, Permutation_sym, P.
Qed.

(* ----------------------------------------------------------------- *)
(** ** The breakdowns as folds of [_incrementSummation] *)

Section Breakdowns.
Variable ext : Q -> string.
Variable parse : string -> Date.
Variable localMonth : Z -> nat.

Local Abbreviation increment := (_incrementSummation ext).
Local Abbreviation visit := (visit ext parse localMonth).
Local Abbreviation statsOf data := (computeStats ext parse localMonth data).

Lemma countIf_raised (item : Item) (flag name : string) (c : Obj.t number) :
  countIf ext item flag name c = fold_left increment (raised item flag name) c.
Proof. unfold countIf, raised. now destruct (isTrue (field item flag)). Qed.

Lemma counters_visit (s : Stats) (item : Item) :
  counters (visit s item) = fold_left increment (counterLabels item) (counters s).
Proof.
  unfold counterLabels. rewrite !fold_left_app, <- !countIf_raised.
  reflexivity.
Qed.

Lemma fold_visit (data : list Item) :
  forall s,
    type (breakdowns (fold_left visit data s))
    = fold_left increment (map typeLabel data) (type (breakdowns s))
    /\ severity (breakdowns (fold_left visit data s))
       = fold_left increment (map severityLabel data) (severity (breakdowns s))
    /\ month (breakdowns (fold_left visit data s))
       = fold_left increment (map (monthLabel parse localMonth) data)
                   (month (breakdowns s))
    /\ dayOfWeek (breakdowns (fold_left visit data s))
       = fold_left increment (map dayOfWeekLabel data) (dayOfWeek (breakdowns s))
    /\ hour (breakdowns (fold_left visit data s))
       = fold_left increment (map (hourLabel ext) data) (hour (breakdowns s))
    /\ intersection (breakdowns (fold_left visit data s))
       = fold_left increment (map locationLabel data)
                   (intersection (breakdowns s))
    /\ counters (fold_left visit data s)
       = fold_left increment (flat_map counterLabels data) (counters s).
Proof.
  induction data as [|item data IH]; intros s; cbn [fold_left map flat_map].
  - repeat split.
  - destruct (IH (visit s item)) as (A & B & C & D & E & F & G).
    rewrite A, B, C, D, E, F, G, fold_left_app, counters_visit.
    repeat split.
Qed.

(** What [computeStats] returns, breakdown by breakdown. *)
Lemma computeStats_folds (data : list Item) :
  totalCrashes (statsOf data) = Num.ofNat (List.length data)
  /\ type (breakdowns (statsOf data))
     = fold_left increment (map typeLabel data) []
  /\ severity (breakdowns (statsOf data))
     = fold_left increment (map severityLabel data) []
  /\ month (breakdowns (statsOf data))
     = fold_left increment (map (monthLabel parse localMonth) data) []
  /\ dayOfWeek (breakdowns (statsOf data))
     = fold_left increment (map dayOfWeekLabel data) []
  /\ hour (breakdowns (statsOf data))
     = fold_left increment (map (hourLabel ext) data) []
  /\ intersection (breakdowns (statsOf data))
     = fold_left increment (map locationLabel data) []
  /\ counters (statsOf data)
     = fold_left increment (flat_map counterLabels data) []
  /\ intersectionTop10 (breakdowns (statsOf data))
     = Some (Obj.fromEntries
               (top10 (intersection (breakdowns (statsOf data))))).
Proof.
  destruct (fold_visit data (newStats data)) as (A & B & C & D & E & F & G).
  unfold computeStats.
  cbn [totalCrashes breakdowns type severity month dayOfWeek hour intersection
       counters intersectionTop10].
  rewrite totalCrashes_fold, A, B, C, D, E, F, G. repeat split.
Qed.

End Breakdowns.

(* ----------------------------------------------------------------- *)
(** ** Names that [Object.prototype] does not answer to *)


Lemma at_not_inherited (ext : Q -> string) (table : list string) (i : number) :
  forallb (fun k => negb (Obj.inherited k)) table = true ->
  Obj.inherited (ToPropertyKey ext (at_ table i)) = false.
Proof.
  intros T. unfold at_. destruct i as [| |q]; try reflexivity.
  destruct ((Qden q =? 1)%positive && (0 <=? Qnum q)); [| reflexivity].
  destruct (nth_error table (Z.to_nat (Qnum q))) as [s|] eqn:N; [| reflexivity].
  apply nth_error_In in N. rewrite forallb_forall in T.
  apply negb_true_iff. now apply T.
Qed.

Lemma monthLabel_not_inherited ext parse localMonth (item : Item) :
  Obj.inherited (ToPropertyKey ext (monthLabel parse localMonth item)) = false.
Proof. now apply at_not_inherited. Qed.

Lemma dayOfWeekLabel_not_inherited ext (item : Item) :
  Obj.inherited (ToPropertyKey ext (dayOfWeekLabel item)) = false.
Proof. now apply at_not_inherited. Qed.

Lemma counterLabels_not_inherited ext (item : Item) :
  Forall (fun v => Obj.inherited (ToPropertyKey ext v) = false)
         (counterLabels item).
Proof.
  unfold counterLabels, raised.
  repeat (apply Forall_app; split);
    match goal with
    | |- context [isTrue ?v] => destruct (isTrue v)
    end; repeat constructor.
Qed.

(* ----------------------------------------------------------------- *)
(** ** The breakdowns as tallies *)

Section Sums.
Variable ext : Q -> string.
Variable parse : string -> Date.
Variable localMonth : Z -> nat.

Local Abbreviation key v := (ToPropertyKey ext v).
Local Abbreviation statsOf data := (computeStats ext parse localMonth data).
Local Abbreviation notInherited label data :=
  (Forall (fun item : Item => Obj.inherited (key (label item)) = false) data).

(** A breakdown stores the tally of the names the rows hand over, when
    [Object.prototype] answers to none of them.  The names of the months,
    of the days of the week and of the seven counters are such names
    always. *)
Lemma breakdowns_are_tallies (data : list Item) :
  (notInherited typeLabel data ->
   type (breakdowns (statsOf data))
   = counted (tally (map (fun item => key (typeLabel item)) data)))
  /\ (notInherited severityLabel data ->
      severity (breakdowns (statsOf data))
      = counted (tally (map (fun item => key (severityLabel item)) data)))
  /\ month (breakdowns (statsOf data))
     = counted (tally (map (fun item => key (monthLabel parse localMonth item))
                           data))
  /\ dayOfWeek (breakdowns (statsOf data))
     = counted (tally (map (fun item => key (dayOfWeekLabel item)) data))
  /\ (notInherited (hourLabel ext) data ->
      hour (breakdowns (statsOf data))
      = counted (tally (map (fun item => key (hourLabel ext item)) data)))
  /\ (notInherited locationLabel data ->
      intersection (breakdowns (statsOf data))
      = counted (tally (map (fun item => key (locationLabel item)) data)))
  /\ counters (statsOf data)
     = counted (tally (map (fun v => key v) (flat_map counterLabels data))).
Proof.
  destruct (computeStats_folds ext parse localMonth data)
    as (_ & A & B & C & D & E & F & G & _).
  rewrite A, B, C, D, E, F, G.
  repeat split; try intros H;
    rewrite increment_tally, ?map_map; try reflexivity.
  - now apply Forall_map.
  - now apply Forall_map.
  - apply Forall_map, Forall_forall. intros item _.
    apply monthLabel_not_inherited.
  - apply Forall_map, Forall_forall. intros item _.
    apply dayOfWeekLabel_not_inherited.
  - now apply Forall_map.
  - now apply Forall_map.
  - apply Forall_flat_map, Forall_forall. intros item _.
    apply counterLabels_not_inherited.
Qed.

Lemma sumCounts_tally (ks : list string) :
  sumCounts (counted (tally ks)) = Num.ofNat (List.length ks).
Proof.
  destruct (tally_spec ks) as (ND & _ & T & _).
  now rewrite sumCounts_counted, T.
Qed.

(** [totalCrashes] is the number of rows, and the counts of a breakdown add
    up to it, when [Object.prototype] answers to none of the names handed
    over for the breakdown; for the breakdowns by month and by day of the
    week that is always so. *)
Lemma sums_equal_totalCrashes (data : list Item) :
  totalCrashes (statsOf data) = Num.ofNat (List.length data)
  /\ (notInherited typeLabel data ->
      sumCounts (type (breakdowns (statsOf data))) = totalCrashes (statsOf data))
  /\ (notInherited severityLabel data ->
      sumCounts (severity (breakdowns (statsOf data)))
      = totalCrashes (statsOf data))
  /\ sumCounts (month (breakdowns (statsOf data))) = totalCrashes (statsOf data)
  /\ sumCounts (dayOfWeek (breakdowns (statsOf data)))
     = totalCrashes (statsOf data)
  /\ (notInherited (hourLabel ext) data ->
      sumCounts (hour (breakdowns (statsOf data))) = totalCrashes (statsOf data))
  /\ (notInherited locationLabel data ->
      sumCounts (intersection (breakdowns (statsOf data)))
      = totalCrashes (statsOf data)).
Proof.
  destruct (breakdowns_are_tallies data) as (A & B & C & D & E & F & _).
  destruct (computeStats_folds ext parse localMonth data) as (T & _).
  rewrite T.
  repeat split; try intros H;
    rewrite ?(A H), ?(B H), ?C, ?D, ?(E H), ?(F H), sumCounts_tally, length_map;
    reflexivity.
Qed.

End Sums.

(** C1.  A crash type spelled "constructor" is not counted from 1: the
    first such row stores [NaN], the second stores 1.  For one such row the
    breakdown by type holds [NaN] and so does its sum, while [totalCrashes]
    is 1; for two such rows and a row of type "T1" the counts add up to 2,
    while [totalCrashes] is 3; a row of type "__proto__" leaves the
    breakdown empty. *)
Theorem inherited_label_breaks_the_sum
        (ext : Q -> string) (parse : string -> Date) (localMonth : Z -> nat) :
  totalCrashes (computeStats ext parse localMonth [Sample.ofTypeConstructor])
  = Num.ofZ 1
  /\ type (breakdowns
             (computeStats ext parse localMonth [Sample.ofTypeConstructor]))
     = [("constructor", NaN)]
  /\ sumCounts
       (type (breakdowns
                (computeStats ext parse localMonth [Sample.ofTypeConstructor])))
     = NaN
  /\ totalCrashes
       (computeStats ext parse localMonth
          [Sample.ofTypeConstructor; Sample.ofTypeConstructor; Sample.ofTypeT1])
     = Num.ofZ 3
  /\ type (breakdowns
             (computeStats ext parse localMonth
                [Sample.ofTypeConstructor; Sample.ofTypeConstructor;
                 Sample.ofTypeT1]))
     = [("constructor", Num.ofZ 1); ("T1", Num.ofZ 1)]
  /\ sumCounts
       (type (breakdowns
                (computeStats ext parse localMonth
                   [Sample.ofTypeConstructor; Sample.ofTypeConstructor;
                    Sample.ofTypeT1])))
     = Num.ofZ 2
  /\ type (breakdowns (computeStats ext parse localMonth [Sample.ofTypeProto]))
     = []
  /\ sumCounts
       (type (breakdowns (computeStats ext parse localMonth [Sample.ofTypeProto])))
     = Num.ofZ 0.
Proof. repeat split. Qed.

(** C10.  After one row of type "constructor" the breakdown by type has the
    key "constructor" with the value [NaN], which is no positive integer;
    after one row of type "__proto__" the row has handed over the name
    "__proto__" and the breakdown has no key at all. *)
Theorem inherited_label_stores_NaN
        (ext : Q -> string) (parse : string -> Date) (localMonth : Z -> nat) :
  ToPropertyKey ext (typeLabel Sample.ofTypeConstructor) = "constructor"
  /\ Obj.entries
       (type (breakdowns
                (computeStats ext parse localMonth [Sample.ofTypeConstructor])))
     = [("constructor", NaN)]
  /\ ToPropertyKey ext (typeLabel Sample.ofTypeProto) = "__proto__"
  /\ Obj.keys
       (type (breakdowns (computeStats ext parse localMonth [Sample.ofTypeProto])))
     = [].
Proof. repeat split. Qed.

(** What an object that stores a tally shows: its keys are the labels
    counted, and each entry holds the number of occurrences of its key,
    which is at least 1. *)
Lemma tally_object_spec (ks : list string) :
  (forall k, In k (Obj.keys (counted (tally ks))) <-> In k ks)
  /\ (forall k v, In (k, v) (Obj.entries (counted (tally ks))) ->
        exists n, v = Num.ofNat n /\ (1 <= n)%nat
                  /\ n = count_occ string_dec ks k).
Proof.
  destruct (tally_spec ks) as (ND & P & _ & M & C). split.
  - intros k. rewrite <- M, <- counted_keys.
    split; apply Permutation_in;
      [| apply Permutation_sym]; apply keys_perm.
  - intros k v I.
    apply (Permutation_in _ (entries_perm (counted (tally ks))
                               ltac:(now rewrite counted_keys))) in I.
    unfold counted in I. apply in_map_iff in I as ([k' n] & [= <- <-] & I).
    exists n. split; [reflexivity | split].
    + rewrite Forall_forall in P. apply (P _ I).
    + now apply C.
Qed.

(* ----------------------------------------------------------------- *)
(** ** The order of array-index keys *)













(* ----------------------------------------------------------------- *)
(** ** [Array.prototype.sort] *)

Section SortPermutes.
Context {A : Type}.
Variable comparefn : A -> A -> number.

Lemma insert_perm (x : A) (l : list A) :
  Permutation (Arr.insert comparefn x l) (x :: l).
Proof.
  induction l as [|y l IH]; cbn; [reflexivity |].
  destruct (Arr.before comparefn y x); [| reflexivity].
  rewrite IH. apply perm_swap.
Qed.

Lemma sort_perm (l : list A) : Permutation (Arr.sort comparefn l) l.
Proof.
  induction l as [|x l IH]; cbn; [reflexivity |].
  now rewrite insert_perm, IH.
Qed.

End SortPermutes.

(** When the comparison function orders the elements by a rank, larger
    ranks first. *)
Section SortByRank.
Context {A : Type}.
Variable comparefn : A -> A -> number.
Variable rank : A -> Z.
Variable P : A -> Prop.
Hypothesis before_rank :
  forall x y, P x -> P y -> Arr.before comparefn x y = (rank y <? rank x).





End SortByRank.

(* ----------------------------------------------------------------- *)
(** ** [Object.fromEntries] *)



(* ----------------------------------------------------------------- *)
(** ** The ten intersections with most crashes *)







(* ----------------------------------------------------------------- *)
(** ** Trimming and collapsing white space *)

Lemma nonBlank_cons (c : ascii) (s : string) :
  nonBlank (String c s) = negb (Str.isWhiteSpace c) || nonBlank s.
Proof.
  unfold nonBlank. cbn. now destruct (Str.isWhiteSpace c).
Qed.

Lemma trimStart_blank (s : string) :
  nonBlank s = false -> Str.trimStart s = "".
Proof.
  induction s as [|c s IH]; [reflexivity |].
  rewrite nonBlank_cons. cbn. destruct (Str.isWhiteSpace c); cbn; auto.
  discriminate.
Qed.

Lemma trimEnd_blank (s : string) : nonBlank s = false -> Str.trimEnd s = "".
Proof.
  induction s as [|c s IH]; [reflexivity |].
  rewrite nonBlank_cons. cbn. destruct (Str.isWhiteSpace c); cbn; [| discriminate].
  intros H. now rewrite IH.
Qed.

Lemma trimEnd_nonBlank (s : string) :
  nonBlank s = true -> Str.trimEnd s <> "".
Proof.
  induction s as [|c s IH]; [discriminate |].
  rewrite nonBlank_cons. cbn.
  destruct (Str.trimEnd s) eqn:T; [| discriminate].
  destruct (Str.isWhiteSpace c); cbn; [| discriminate].
  intros H. now apply IH in H.
Qed.

Lemma trimStart_nonBlank (s : string) :
  nonBlank (Str.trimStart s) = nonBlank s.
Proof.
  induction s as [|c s IH]; [reflexivity |].
  cbn [Str.trimStart]. destruct (Str.isWhiteSpace c) eqn:W; [| reflexivity].
  rewrite IH, nonBlank_cons, W. reflexivity.
Qed.

Lemma trimEnd_keeps_nonBlank (s : string) :
  nonBlank (Str.trimEnd s) = nonBlank s.
Proof.
  induction s as [|c s IH]; [reflexivity |].
  cbn [Str.trimEnd]. rewrite nonBlank_cons, <- IH.
  destruct (Str.trimEnd s) eqn:T.
  - destruct (Str.isWhiteSpace c) eqn:W; [reflexivity |].
    now rewrite nonBlank_cons, W.
  - now rewrite nonBlank_cons.
Qed.

(** Trimming the start leaves alone what follows a part that is not
    blank. *)
Lemma trimStart_app (w t : string) :
  nonBlank w = true -> Str.trimStart (w ++ t) = Str.trimStart w ++ t.
Proof.
  induction w as [|c w IH]; [discriminate |].
  rewrite nonBlank_cons. cbn.
  destruct (Str.isWhiteSpace c); cbn; [exact IH | reflexivity].
Qed.

(** Trimming the end leaves alone what precedes a part that is not
    blank. *)
Lemma trimEnd_app (w t : string) :
  nonBlank t = true -> Str.trimEnd (w ++ t) = w ++ Str.trimEnd t.
Proof.
  intros H. induction w as [|c w IH]; [reflexivity |].
  cbn. rewrite IH.
  destruct (w ++ Str.trimEnd t) eqn:E; [| reflexivity].
  exfalso. apply (trimEnd_nonBlank t H).
  destruct w; cbn in E; [exact E | discriminate].
Qed.

Lemma trimEnd_head (c : ascii) (s : string) :
  Str.isWhiteSpace c = false ->
  exists r, Str.trimEnd (String c s) = String c r.
Proof.
  intros W. cbn. destruct (Str.trimEnd s); rewrite ?W; eauto.
Qed.

Lemma trim_commutes (s : string) :
  Str.trimStart (Str.trimEnd s) = Str.trimEnd (Str.trimStart s).
Proof.
  induction s as [|c s IH]; [reflexivity |].
  destruct (Str.isWhiteSpace c) eqn:W.
  - cbn [Str.trimStart]. rewrite W, <- IH. cbn [Str.trimEnd].
    destruct (Str.trimEnd s); rewrite ?W; cbn; rewrite ?W; reflexivity.
  - cbn [Str.trimStart]. rewrite W.
    destruct (trimEnd_head c s W) as (r & ->). cbn. now rewrite W.
Qed.

Lemma collapseFrom_nil (p : option (ascii * bool)) :
  Str.collapseFrom p "" = flushed p.
Proof. now destruct p as [[c []]|]. Qed.

Lemma collapseFrom_char (p : option (ascii * bool)) (c : ascii) (s : string) :
  Str.isWhiteSpace c = false ->
  Str.collapseFrom p (String c s) = flushed p ++ String c (Str.collapseFrom None s).
Proof. intros W. cbn. rewrite W. now destruct p as [[c0 []]|]. Qed.

Lemma flushed_blank (p : option (ascii * bool)) :
  pendingWhiteSpace p -> nonBlank (flushed p) = false.
Proof.
  destruct p as [[c []]|]; cbn; intros W; try reflexivity.
  unfold nonBlank. cbn. now rewrite W.
Qed.

(** A code unit that is not white space ends the run held and starts
    afresh. *)
Lemma collapseFrom_app_char (s : string) :
  forall p c t,
    Str.isWhiteSpace c = false ->
    Str.collapseFrom p (s ++ String c t)
    = Str.collapseFrom p s ++ String c (Str.collapseFrom None t).
Proof.
  induction s as [|d s IH]; intros p c t W.
  - cbn [append]. now rewrite collapseFrom_char, collapseFrom_nil.
  - cbn [append]. destruct (Str.isWhiteSpace d) eqn:D.
    + cbn [Str.collapseFrom]. rewrite D. destruct p as [[c0 m]|]; now apply IH.
    + rewrite !collapseFrom_char by exact D. rewrite (IH None c t W).
      now rewrite !app_assoc_s.
Qed.

Lemma trimEnd_char (c : ascii) (t : string) :
  Str.isWhiteSpace c = false ->
  Str.trimEnd (String c t) = String c (Str.trimEnd t).
Proof. intros W. cbn. destruct (Str.trimEnd t); now rewrite ?W. Qed.

(** A space after a string ends up after the string collapsed and
    trimmed at its end. *)
Lemma collapseFrom_then_space (a : string) :
  forall p,
    pendingWhiteSpace p ->
    Str.collapseFrom p (a ++ " ") = Str.trimEnd (Str.collapseFrom p a) ++ " ".
Proof.
  induction a as [|c a IH]; intros p Wp.
  - rewrite collapseFrom_nil, (trimEnd_blank _ (flushed_blank p Wp)).
    now destruct p as [[c0 m]|].
  - cbn [append]. destruct (Str.isWhiteSpace c) eqn:W.
    + cbn [Str.collapseFrom]. rewrite W.
      destruct p as [[c0 m]|]; apply IH; cbn; auto.
    + rewrite !collapseFrom_char by exact W. rewrite (IH None I).
      rewrite trimEnd_app by (rewrite nonBlank_cons, W; reflexivity).
      rewrite trimEnd_char by exact W. cbn. now rewrite app_assoc_s.
Qed.

Lemma trimStart_flushed (p : option (ascii * bool)) (t : string) :
  pendingWhiteSpace p -> Str.trimStart (flushed p ++ t) = Str.trimStart t.
Proof.
  destruct p as [[c []]|]; cbn; intros W; try reflexivity. now rewrite W.
Qed.

(** The run held at the start does not show once the start is trimmed. *)
Lemma trimStart_collapseFrom (r : string) :
  forall p,
    pendingWhiteSpace p ->
    Str.trimStart (Str.collapseFrom p r)
    = Str.trimStart (Str.collapseFrom None r).
Proof.
  induction r as [|c r IH]; intros p Wp.
  - rewrite !collapseFrom_nil. cbn.
    rewrite <- (app_nil_r_s (flushed p)). now rewrite trimStart_flushed.
  - destruct (Str.isWhiteSpace c) eqn:W.
    + cbn [Str.collapseFrom]. rewrite W.
      rewrite (IH (Some (c, false)) W).
      destruct p as [[c0 m]|]; [apply IH; exact Wp | apply IH; exact W].
    + rewrite !collapseFrom_char by exact W.
      now rewrite trimStart_flushed.
Qed.

(** A space before a string ends up before the string collapsed and
    trimmed at its start. *)
Lemma collapseFrom_after_space (b : string) :
  forall m,
    Str.collapseFrom (Some (" "%char, m)) b
    = " " ++ Str.trimStart (Str.collapseFrom None b).
Proof.
  induction b as [|c b IH]; intros m.
  - now destruct m.
  - destruct (Str.isWhiteSpace c) eqn:W.
    + cbn [Str.collapseFrom]. rewrite W, (IH true).
      now rewrite (trimStart_collapseFrom b (Some (c, false)) W).
    + rewrite !collapseFrom_char by exact W. cbn [flushed append].
      cbn [Str.trimStart]. rewrite W. now destruct m.
Qed.

Lemma nonBlank_app_char (w : string) (c : ascii) (t : string) :
  Str.isWhiteSpace c = false -> nonBlank (w ++ String c t) = true.
Proof.
  intros W. induction w as [|d w IH]; cbn [append]; rewrite nonBlank_cons.
  - now rewrite W.
  - rewrite IH. apply orb_true_r.
Qed.

Lemma collapseFrom_nonBlank (a : string) :
  forall p, nonBlank a = true -> nonBlank (Str.collapseFrom p a) = true.
Proof.
  induction a as [|c a IH]; intros p; [discriminate |].
  rewrite nonBlank_cons. destruct (Str.isWhiteSpace c) eqn:W.
  - cbn [negb orb Str.collapseFrom]. rewrite W.
    destruct p as [[c0 m]|]; apply IH.
  - intros _. rewrite collapseFrom_char by exact W.
    now apply nonBlank_app_char.
Qed.

(** The whole of the clean-up before the split, on two names that are not
    blank. *)
Lemma cleaned_pair (a b : string) :
  nonBlank a = true -> nonBlank b = true ->
  Str.trim (Str.collapseWhiteSpace (a ++ " & " ++ b))
  = cleaned a ++ " & " ++ cleaned b.
Proof.
  intros Ha Hb. unfold cleaned, Str.trim, Str.collapseWhiteSpace.
  replace (a ++ " & " ++ b) with ((a ++ " ") ++ String "&" (" " ++ b))
    by (rewrite app_assoc_s; reflexivity).
  rewrite collapseFrom_app_char by reflexivity.
  rewrite (collapseFrom_then_space a None I).
  change (Str.collapseFrom None (" " ++ b))
    with (Str.collapseFrom (Some (" "%char, false)) b).
  rewrite collapseFrom_after_space.
  assert (Na : nonBlank (Str.trimEnd (Str.collapseFrom None a)) = true)
    by (rewrite trimEnd_keeps_nonBlank; now apply collapseFrom_nonBlank).
  assert (Nb : nonBlank (Str.trimStart (Str.collapseFrom None b)) = true)
    by (rewrite trimStart_nonBlank; now apply collapseFrom_nonBlank).
  rewrite !app_assoc_s. rewrite trimStart_app by exact Na.
  rewrite trim_commutes.
  change (" " ++ String "&" (" " ++ Str.trimStart (Str.collapseFrom None b)))
    with (" & " ++ Str.trimStart (Str.collapseFrom None b)).
  rewrite <- app_assoc_s. rewrite trimEnd_app by exact Nb.
  now rewrite app_assoc_s.
Qed.

(* ----------------------------------------------------------------- *)
(** ** Splitting and sorting the two names *)

Lemma contains_cons (c d : ascii) (s : string) :
  Str.contains c (String d s) = Ascii.eqb c d || Str.contains c s.
Proof. reflexivity. Qed.

Lemma contains_app (c : ascii) (x y : string) :
  Str.contains c (x ++ y) = Str.contains c x || Str.contains c y.
Proof.
  induction x as [|d x IH]; [reflexivity |].
  cbn [append]. rewrite !contains_cons, IH. apply orb_assoc.
Qed.

Lemma flushed_without (p : option (ascii * bool)) :
  pendingWhiteSpace p -> Str.contains "&" (flushed p) = false.
Proof.
  destruct p as [[c []]|]; cbn [flushed pendingWhiteSpace]; intros W;
    try reflexivity.
  rewrite contains_cons. destruct (Ascii.eqb_spec "&"%char c) as [<-|];
    [discriminate | reflexivity].
Qed.

Lemma collapseFrom_without (a : string) :
  forall p,
    pendingWhiteSpace p -> Str.contains "&" a = false ->
    Str.contains "&" (Str.collapseFrom p a) = false.
Proof.
  induction a as [|c a IH]; intros p Wp H.
  - rewrite collapseFrom_nil. now apply flushed_without.
  - rewrite contains_cons in H. apply orb_false_iff in H as (Hc & Ha).
    destruct (Str.isWhiteSpace c) eqn:W.
    + cbn [Str.collapseFrom]. rewrite W.
      destruct p as [[c0 m]|]; apply IH; cbn; auto.
    + rewrite collapseFrom_char by exact W.
      rewrite contains_app, contains_cons, (flushed_without p Wp), Hc.
      now apply (IH None I).
Qed.

Lemma trimStart_without (c : ascii) (s : string) :
  Str.contains c s = false -> Str.contains c (Str.trimStart s) = false.
Proof.
  induction s as [|d s IH]; [reflexivity |].
  intros H. cbn [Str.trimStart]. destruct (Str.isWhiteSpace d); [| exact H].
  rewrite contains_cons in H. apply orb_false_iff in H as (_ & H). now apply IH.
Qed.

Lemma trimEnd_without (c : ascii) (s : string) :
  Str.contains c s = false -> Str.contains c (Str.trimEnd s) = false.
Proof.
  induction s as [|d s IH]; [reflexivity |].
  rewrite contains_cons. intros H. apply orb_false_iff in H as (Hd & H).
  cbn [Str.trimEnd]. specialize (IH H).
  destruct (Str.trimEnd s).
  - destruct (Str.isWhiteSpace d); [reflexivity |].
    now rewrite contains_cons, Hd.
  - now rewrite contains_cons, Hd, IH.
Qed.

Lemma cleaned_without (s : string) :
  Str.contains "&" s = false -> Str.contains "&" (cleaned s) = false.
Proof.
  intros H. unfold cleaned, Str.trim, Str.collapseWhiteSpace.
  apply trimEnd_without, trimStart_without. now apply collapseFrom_without.
Qed.

Lemma cleaned_nonBlank (s : string) :
  nonBlank s = true -> nonBlank (cleaned s) = true.
Proof.
  intros H. unfold cleaned, Str.trim, Str.collapseWhiteSpace.
  rewrite trimEnd_keeps_nonBlank, trimStart_nonBlank.
  now apply collapseFrom_nonBlank.
Qed.

Lemma prefix_app (s t : string) : String.prefix s (s ++ t) = true.
Proof.
  induction s as [|c s IH]; cbn [append String.prefix].
  - now destruct t.
  - destruct (ascii_dec c c); [exact IH | congruence].
Qed.

(** The separator starts where a space is followed by the sign. *)
Lemma prefix_separator (c : ascii) (s : string) :
  String.prefix " & " (String c s) = true -> exists s', s = String "&" s'.
Proof.
  intros H. cbn [String.prefix] in H.
  destruct (ascii_dec " " c); [| discriminate].
  destruct s as [|d s]; cbn [String.prefix] in H; [discriminate |].
  destruct (ascii_dec "&" d) as [<-|]; [| discriminate]. eauto.
Qed.

(** A string without the sign is one piece. *)
Lemma split_one (y : string) :
  forall cur,
    Str.contains "&" y = false ->
    Str.splitFrom " & " cur 0 y = [cur ++ y].
Proof.
  induction y as [|c y IH]; intros cur H.
  - cbn. now rewrite app_nil_r_s.
  - rewrite contains_cons in H. apply orb_false_iff in H as (Hc & Hy).
    cbn [Str.splitFrom].
    destruct (String.prefix " & " (String c y)) eqn:P.
    + apply prefix_separator in P as (s' & ->).
      rewrite contains_cons in Hy. discriminate.
    + rewrite (IH _ Hy), app_assoc_s. reflexivity.
Qed.

(** Two strings without the sign, joined by the separator, are two
    pieces. *)
Lemma split_two (x y : string) :
  forall cur,
    Str.contains "&" x = false -> Str.contains "&" y = false ->
    Str.splitFrom " & " cur 0 (x ++ " & " ++ y) = [cur ++ x; y].
Proof.
  induction x as [|c x IH]; intros cur Hx Hy.
  - change ("" ++ " & " ++ y) with (String " " (String "&" (String " " y))).
    cbn [Str.splitFrom].
    replace (String.prefix " & " (String " " (String "&" (String " " y))))
      with true by (symmetry; apply (prefix_app " & " y)).
    change (String.length " & " - 1)%nat with 2%nat.
    cbn [Str.splitFrom]. rewrite app_nil_r_s. f_equal.
    apply (split_one y "" Hy).
  - rewrite contains_cons in Hx. apply orb_false_iff in Hx as (Hc & Hx).
    change (String c x ++ " & " ++ y) with (String c (x ++ " & " ++ y)).
    cbn [Str.splitFrom].
    destruct (String.prefix " & " (String c (x ++ " & " ++ y))) eqn:P.
    + apply prefix_separator in P as (s' & E).
      destruct x as [|d x]; cbn in E; [discriminate |].
      injection E as -> _. rewrite contains_cons in Hx. discriminate.
    + rewrite (IH _ Hx Hy), app_assoc_s. reflexivity.
Qed.

Lemma lt_asym (x y : string) : Str.lt x y = true -> Str.lt y x = false.
Proof.
  unfold Str.lt, String.ltb. rewrite (String.compare_antisym x y).
  now destruct (String.compare y x).
Qed.

Lemma lt_total (x y : string) :
  Str.lt x y = false -> Str.lt y x = false -> x = y.
Proof.
  unfold Str.lt, String.ltb. rewrite (String.compare_antisym x y).
  destruct (String.compare y x) eqn:C; cbn; try discriminate.
  intros _ _. symmetry. now apply String.compare_eq_iff.
Qed.

Lemma sort_two (x y : string) :
  Arr.sort Arr.defaultCompare [x; y] = if Str.lt y x then [y; x] else [x; y].
Proof.
  cbn. unfold Arr.before, Arr.defaultCompare.
  destruct (Str.lt y x) eqn:L; [reflexivity |].
  destruct (Str.lt x y); reflexivity.
Qed.

Lemma sortedPair_sym (x y : string) : sortedPair x y = sortedPair y x.
Proof.
  unfold sortedPair.
  destruct (Str.lt y x) eqn:L, (Str.lt x y) eqn:L'; try reflexivity.
  - apply lt_asym in L. congruence.
  - now rewrite (lt_total x y L' L).
Qed.

Lemma canonicalLocation_pair (a b : string) :
  streetName a = true -> streetName b = true ->
  canonicalLocation (a ++ " & " ++ b) = sortedPair (cleaned a) (cleaned b).
Proof.
  unfold streetName. intros Ha Hb.
  apply andb_true_iff in Ha as (Na & Aa), Hb as (Nb & Ab).
  apply negb_true_iff in Aa, Ab.
  unfold canonicalLocation. rewrite (cleaned_pair a b Na Nb).
  unfold Str.split.
  rewrite (split_two _ _ "" (cleaned_without a Aa) (cleaned_without b Ab)).
  cbn [append]. rewrite sort_two. unfold sortedPair.
  now destruct (Str.lt (cleaned b) (cleaned a)).
Qed.

(** C4 (amended).  For two names that are not blank and have no "&",
    the location clean-up gives "A & B" and "B & A" the same key: the two
    names, each with its white-space runs collapsed and its ends trimmed,
    in the order of [sort()], joined by " & ". *)
Theorem canonicalLocation_commutes (a b : string) :
  streetName a = true -> streetName b = true ->
  canonicalLocation (a ++ " & " ++ b) = canonicalLocation (b ++ " & " ++ a)
  /\ canonicalLocation (a ++ " & " ++ b) = sortedPair (cleaned a) (cleaned b).
Proof.
  intros Ha Hb. split.
  - rewrite (canonicalLocation_pair a b Ha Hb), (canonicalLocation_pair b a Hb Ha).
    apply sortedPair_sym.
  - now apply canonicalLocation_pair.
Qed.

(* ----------------------------------------------------------------- *)
(** ** A load from its first event to its last *)

Section Events.
Variable Error : Type.

Lemma emit_uncaught (w : Loading Error) (ev : StreamEvent Error) :
  uncaught Error (emit Error w ev) =
    match uncaught Error w with
    | Some e => Some e
    | None => match ev with sourceError e => Some e | _ => None end
    end.
Proof.
  unfold emit. destruct (uncaught Error w) eqn:U; [exact U |].
  destruct ev; cbn; try reflexivity; exact U.
Qed.

Lemma fold_emit_uncaught (events : list (StreamEvent Error)) :
  forall w : Loading Error,
    uncaught Error (fold_left (emit Error) events w) =
      match uncaught Error w with
      | Some e => Some e
      | None => firstSourceError events
      end.
Proof.
  induction events as [|ev events IH]; intros w; cbn [fold_left firstSourceError].
  - now destruct (uncaught Error w).
  - rewrite IH, emit_uncaught. destruct (uncaught Error w); [reflexivity |].
    now destruct ev.
Qed.

Lemma emit_settled (w : Loading Error) (ev : StreamEvent Error) :
  promise Error w <> Pending ->
  promise Error (emit Error w ev) = promise Error w.
Proof.
  intros S. unfold emit. destruct (uncaught Error w); [reflexivity |].
  destruct ev; cbn; try reflexivity; destruct (promise Error w); congruence.
Qed.

Lemma fold_emit_settled (events : list (StreamEvent Error)) :
  forall w : Loading Error,
    promise Error w <> Pending ->
    promise Error (fold_left (emit Error) events w) = promise Error w.
Proof.
  induction events as [|ev events IH]; intros w S; cbn [fold_left];
    [reflexivity |].
  rewrite IH by (rewrite emit_settled; assumption).
  now apply emit_settled.
Qed.

Lemma fold_emit_ended (events : list (StreamEvent Error)) :
  forall w : Loading Error,
    uncaught Error w <> None -> fold_left (emit Error) events w = w.
Proof.
  induction events as [|ev events IH]; intros w U; [reflexivity |].
  cbn [fold_left]. assert (E : emit Error w ev = w).
  { unfold emit. destruct (uncaught Error w); [reflexivity | congruence]. }
  rewrite E. now apply IH.
Qed.

Lemma fold_emit_log (events : list (StreamEvent Error)) :
  forall w : Loading Error,
    uncaught Error w = None ->
    errorLog Error (fold_left (emit Error) events w)
    = (errorLog Error w
       ++ flat_map (fun e => [e; e; e]) (parserErrors (heard events)))%list
    /\ results Error (fold_left (emit Error) events w)
       = (results Error w ++ dataRows (heard events))%list.
Proof.
  induction events as [|ev events IH]; intros w U; cbn [fold_left].
  - cbn. now rewrite !app_nil_r.
  - destruct ev as [e|e|row|].
    + cbn [heard parserErrors dataRows flat_map]. rewrite !app_nil_r.
      rewrite fold_emit_ended.
      * unfold emit. rewrite U. now cbn.
      * rewrite emit_uncaught, U. discriminate.
    + destruct (IH (emit Error w (parserError e))) as (L & R).
      { now rewrite emit_uncaught, U. }
      rewrite L, R. unfold emit. rewrite U.
      cbn. rewrite <- !app_assoc. now cbn.
    + destruct (IH (emit Error w (parserData row))) as (L & R).
      { now rewrite emit_uncaught, U. }
      rewrite L, R. unfold emit. rewrite U.
      cbn. rewrite <- !app_assoc. now cbn.
    + destruct (IH (emit Error w parserEnd)) as (L & R).
      { now rewrite emit_uncaught, U. }
      rewrite L, R. unfold emit. rewrite U. now cbn.
Qed.

End Events.

(** X1.  When the parser emits rows and then ends, the promise is
    fulfilled with exactly these rows, in the order of their arrival,
    nothing is written to [console.error], and [main] prints the report of
    the statistics of these rows.  As long as the parser has not ended the
    promise is pending, and [main] gets no further than its [await]. *)
Theorem load_resolves_with_the_rows_in_order
        (ext : Q -> string) (parse : string -> Date) (localMonth : Z -> nat)
        (toLocale : number -> string) (toLocaleDate : Date -> string)
        (Error : Type) (rows : list Item) :
  loadCrashData Error (map parserData rows ++ [parserEnd]) =
    {| results := rows; errorLog := [];
       promise := Fulfilled rows; uncaught := None |}
  /\ main ext parse localMonth toLocale toLocaleDate Error
          (map parserData rows ++ [parserEnd])
     = Reported Error
         (displayStats ext toLocale toLocaleDate
            (computeStats ext parse localMonth rows))
  /\ loadCrashData Error (map parserData rows) =
       {| results := rows; errorLog := [];
          promise := Pending; uncaught := None |}
  /\ main ext parse localMonth toLocale toLocaleDate Error
          (map parserData rows) = Unsettled Error.
Proof.
  assert (D : loadCrashData Error (map parserData rows) =
                {| results := rows; errorLog := [];
                   promise := Pending; uncaught := None |}).
  { unfold loadCrashData. now rewrite loadCrashData_data. }
  assert (L : loadCrashData Error (map parserData rows ++ [parserEnd]) =
                {| results := rows; errorLog := [];
                   promise := Fulfilled rows; uncaught := None |}).
  { unfold loadCrashData in *. rewrite fold_left_app, D. reflexivity. }
  repeat split.
  - exact L.
  - unfold main. now rewrite L.
  - exact D.
  - unfold main. now rewrite D.
Qed.

(** X2.  The first error of the parser settles the load: whatever the
    streams emit after it, more errors or the end, the promise stays
    rejected with that first error, and [main] ends with it without a
    report, unless an error of the file stream, which no handler hears,
    ends the run first. *)
Theorem first_error_settles_the_load
        (ext : Q -> string) (parse : string -> Date) (localMonth : Z -> nat)
        (toLocale : number -> string) (toLocaleDate : Date -> string)
        (Error : Type) (rows : list Item) (e : Error)
        (later : list (StreamEvent Error)) :
  promise Error
    (loadCrashData Error (map parserData rows ++ parserError e :: later))
  = Rejected e
  /\ main ext parse localMonth toLocale toLocaleDate Error
          (map parserData rows ++ parserError e :: later)
     = match firstSourceError later with
       | Some e' => Crashed Error e'
       | None => Aborted Error e
       end.
Proof.
  assert (W : loadCrashData Error (map parserData rows ++ parserError e :: later)
              = fold_left (emit Error) later
                  {| results := rows; errorLog := [e; e; e];
                     promise := Rejected e; uncaught := None |}).
  { unfold loadCrashData.
    rewrite fold_left_app, loadCrashData_data by reflexivity. reflexivity. }
  assert (P : promise Error
                (loadCrashData Error
                   (map parserData rows ++ parserError e :: later))
              = Rejected e).
  { rewrite W, fold_emit_settled; [reflexivity | discriminate]. }
  split; [exact P |].
  unfold main. rewrite P, W, fold_emit_uncaught. cbn [uncaught].
  now destruct (firstSourceError later).
Qed.

(** X3.  Whatever the streams emit, every error of the parser that is
    heard is written to [console.error] three times in a row, once by each
    of the three handlers, and nothing else is written there; [results]
    holds the rows of the ['data'] events heard, in their order, also those
    that arrive after an error. *)
Theorem every_parser_error_is_logged_three_times
        (Error : Type) (events : list (StreamEvent Error)) :
  errorLog Error (loadCrashData Error events)
  = flat_map (fun e => [e; e; e]) (parserErrors (heard events))
  /\ results Error (loadCrashData Error events) = dataRows (heard events)
  /\ uncaught Error (loadCrashData Error events) = firstSourceError events.
Proof.
  unfold loadCrashData.
  destruct (fold_emit_log Error events
              {| results := []; errorLog := []; promise := Pending;
                 uncaught := None |} eq_refl) as (L & R).
  rewrite L, R, fold_emit_uncaught. now cbn.
Qed.

(* ----------------------------------------------------------------- *)
(** ** Header names *)

Lemma mapHeaders_filter (h : string) :
  list_ascii_of_string (mapHeaders h)
  = filter (fun c => negb (Str.isWhiteSpace c)) (list_ascii_of_string h).
Proof.
  induction h as [|c h IH]; [reflexivity |].
  cbn [mapHeaders list_ascii_of_string filter].
  destruct (Str.isWhiteSpace c); cbn [negb list_ascii_of_string]; now rewrite IH.
Qed.

Lemma mapHeaders_app (h h' : string) :
  mapHeaders (h ++ h') = mapHeaders h ++ mapHeaders h'.
Proof.
  induction h as [|c h IH]; [reflexivity |].
  cbn [append mapHeaders]. destruct (Str.isWhiteSpace c); cbn [append];
    now rewrite IH.
Qed.

Lemma mapHeaders_fixed (h : string) :
  forallb (fun c => negb (Str.isWhiteSpace c)) (list_ascii_of_string h) = true ->
  mapHeaders h = h.
Proof.
  induction h as [|c h IH]; [reflexivity |].
  cbn [list_ascii_of_string forallb mapHeaders]. intros H.
  apply andb_true_iff in H as (C & H). apply negb_true_iff in C.
  rewrite C. now rewrite IH.
Qed.

Lemma mapHeaders_clean (h : string) :
  forallb (fun c => negb (Str.isWhiteSpace c))
          (list_ascii_of_string (mapHeaders h)) = true.
Proof.
  induction h as [|c h IH]; [reflexivity |].
  cbn [mapHeaders]. destruct (Str.isWhiteSpace c) eqn:C; [exact IH |].
  cbn [list_ascii_of_string forallb]. now rewrite C, IH.
Qed.

(** X4.  [mapHeaders] removes the white-space code units of a header and
    nothing else: the name it gives is the header's other code units in
    their order, holds no white space, is left as it is by a second pass,
    is the header itself exactly when the header has no white space, and is
    empty exactly when the header is blank; the name of a concatenation is
    the concatenation of the names. *)
Theorem mapHeaders_removes_exactly_the_white_space (h : string) :
  list_ascii_of_string (mapHeaders h)
  = filter (fun c => negb (Str.isWhiteSpace c)) (list_ascii_of_string h)
  /\ forallb (fun c => negb (Str.isWhiteSpace c))
             (list_ascii_of_string (mapHeaders h)) = true
  /\ mapHeaders (mapHeaders h) = mapHeaders h
  /\ (forall h', mapHeaders (h ++ h') = mapHeaders h ++ mapHeaders h')
  /\ (mapHeaders h = h <->
      forallb (fun c => negb (Str.isWhiteSpace c)) (list_ascii_of_string h)
      = true)
  /\ (mapHeaders h = "" <-> nonBlank h = false).
Proof.
  split; [apply mapHeaders_filter |].
  split; [apply mapHeaders_clean |].
  split; [apply mapHeaders_fixed, mapHeaders_clean |].
  split; [intros h'; apply mapHeaders_app |].
  split.
  - split; [| apply mapHeaders_fixed].
    intros E. rewrite <- E. apply mapHeaders_clean.
  - unfold nonBlank. rewrite negb_false_iff.
    induction h as [|c h IH]; [now split |].
    cbn [mapHeaders list_ascii_of_string forallb].
    destruct (Str.isWhiteSpace c); cbn [andb]; [exact IH |].
    split; discriminate.
Qed.

(* ----------------------------------------------------------------- *)
(** ** The order of the labels *)

Lemma lt_trans_s (x y z : string) :
  Str.lt x y = true -> Str.lt y z = true -> Str.lt x z = true.
Proof.
  unfold Str.lt, String.ltb. intros A B.
  destruct (String.compare x y) eqn:C1; try discriminate.
  destruct (String.compare y z) eqn:C2; try discriminate.
  apply OrderedTypeEx.String_as_OT.cmp_lt in C1, C2.
  pose proof (OrderedTypeEx.String_as_OT.lt_trans _ _ _ C1 C2) as T.
  apply OrderedTypeEx.String_as_OT.cmp_lt in T.
  unfold OrderedTypeEx.String_as_OT.cmp in T. now rewrite T.
Qed.

Lemma lt_irrefl_s (x : string) : Str.lt x x = false.
Proof.
  destruct (Str.lt x x) eqn:E; [| reflexivity].
  pose proof (lt_asym x x E). congruence.
Qed.

Lemma notAfter_trans (x y z : string) :
  notAfter x y -> notAfter y z -> notAfter x z.
Proof.
  unfold notAfter. intros A B.
  destruct (Str.lt z x) eqn:C; [| reflexivity].
  destruct (Str.lt x y) eqn:D.
  - pose proof (lt_trans_s _ _ _ C D). congruence.
  - pose proof (lt_total _ _ D A). subst y. congruence.
Qed.

(** X5.  [_alphaSort] is a comparison function [sort] can rely on: it
    answers -1 when [a] is before [b] in the code-unit order, 0 when the
    two are the same string and 1 otherwise; it answers 0 only for equal
    strings; swapping the arguments negates the answer; and it is
    transitive. *)
Theorem alphaSort_is_a_consistent_comparison (a b c : string) :
  _alphaSort a b
  = (if Str.lt a b then Num.ofZ (-1)
     else if String.eqb a b then Num.ofZ 0 else Num.ofZ 1)
  /\ (_alphaSort a b = Num.ofZ 0 <-> a = b)
  /\ _alphaSort b a = Num.neg (_alphaSort a b)
  /\ (_alphaSort a b = Num.ofZ (-1) -> _alphaSort b c = Num.ofZ (-1) ->
      _alphaSort a c = Num.ofZ (-1))
  /\ Arr.before _alphaSort a b = Str.lt a b.
Proof.
  assert (V : forall x y,
             _alphaSort x y
             = (if Str.lt x y then Num.ofZ (-1)
                else if String.eqb x y then Num.ofZ 0 else Num.ofZ 1)).
  { intros x y. unfold _alphaSort. destruct (Str.lt x y) eqn:L; [reflexivity |].
    destruct (Str.lt y x) eqn:G.
    - destruct (String.eqb_spec x y) as [->|]; [| reflexivity].
      rewrite lt_irrefl_s in G. discriminate.
    - rewrite (lt_total _ _ L G), String.eqb_refl. reflexivity. }
  assert (M : forall x y, _alphaSort x y = Num.ofZ (-1) <-> Str.lt x y = true).
  { intros x y. rewrite V. destruct (Str.lt x y); [now split |].
    destruct (String.eqb x y); split; discriminate. }
  split; [apply V | split; [| split; [| split]]].
  - rewrite V. destruct (Str.lt a b) eqn:L.
    + split; [discriminate |]. intros ->. rewrite lt_irrefl_s in L. discriminate.
    + destruct (String.eqb_spec a b); split; try discriminate; tauto.
  - unfold _alphaSort. destruct (Str.lt a b) eqn:L.
    + now rewrite (lt_asym _ _ L).
    + now destruct (Str.lt b a).
  - rewrite !M. apply lt_trans_s.
  - unfold Arr.before. rewrite V. destruct (Str.lt a b); [reflexivity |].
    now destruct (String.eqb a b).
Qed.

Section SortByOrder.
Context {A : Type}.
Variable comparefn : A -> A -> number.
Variable le : A -> A -> Prop.
Hypothesis le_trans : forall x y z, le x y -> le y z -> le x z.
Hypothesis before_le : forall x y, Arr.before comparefn x y = true -> le x y.
Hypothesis not_before_le :
  forall x y, Arr.before comparefn x y = false -> le y x.

Lemma insert_ordered (x : A) (l : list A) :
  StronglySorted le l -> StronglySorted le (Arr.insert comparefn x l).
Proof.
  induction l as [|y l IH]; intros S; cbn [Arr.insert].
  - repeat constructor.
  - inversion S as [|? ? S' F]; subst.
    destruct (Arr.before comparefn y x) eqn:B.
    + constructor; [now apply IH |].
      apply (Permutation_Forall (Permutation_sym (insert_perm comparefn x l))).
      constructor; [now apply before_le | exact F].
    + apply not_before_le in B. constructor; [exact S |].
      constructor; [exact B |].
      eapply Forall_impl; [| exact F]. intros z Hz. now apply (le_trans x y z).
Qed.

Lemma sort_ordered (l : list A) : StronglySorted le (Arr.sort comparefn l).
Proof.
  induction l as [|x l IH]; cbn [Arr.sort]; [constructor |].
  now apply insert_ordered.
Qed.

End SortByOrder.

(** X6.  A breakdown printed with [_alphaSort], as the sections of the
    most dangerous intersections, of the types and of the severities are,
    is its title followed by one line for each key of the object, the keys
    in ascending code-unit order, whatever the order in which the object
    lists them: the ranking of the ten intersections by count, too, is
    replaced by the order of their names. *)
Theorem alphaSort_lists_the_labels_in_code_unit_order
        (ext : Q -> string) (toLocale : number -> string)
        (title : string) (breakdown : Obj.t number) (totalCrashes : number) :
  exists labels : list string,
    _logConsoleBreakdown ext toLocale title breakdown totalCrashes
                         (Some _alphaSort)
    = title
        :: flat_map (fun k => _logConsoleStat ext toLocale (tab ++ k)
                                (Obj.get breakdown k) totalCrashes)
                    labels
    /\ Permutation labels (Obj.keys breakdown)
    /\ StronglySorted notAfter labels.
Proof.
  exists (Arr.sort _alphaSort (Obj.keys breakdown)).
  split; [reflexivity | split; [apply sort_perm |]].
  apply sort_ordered.
  - apply notAfter_trans.
  - intros x y B. unfold Arr.before, _alphaSort, notAfter in *.
    destruct (Str.lt x y) eqn:L; [now apply lt_asym |].
    destruct (Str.lt y x); discriminate.
  - intros x y B. unfold Arr.before, _alphaSort, notAfter in *.
    destruct (Str.lt x y) eqn:L; [discriminate | reflexivity].
Qed.

(* ----------------------------------------------------------------- *)
(** ** Tallies as maps *)

Lemma getOwn_tally (ks : list string) (k : string) :
  Obj.getOwn (tally ks) k
  = match count_occ string_dec ks k with
    | O => None
    | S n => Some (S n)
    end.
Proof.
  destruct (tally_spec ks) as (ND & Pos & _ & M & C).
  destruct (Obj.getOwn (tally ks) k) as [n|] eqn:G.
  - apply getOwn_In in G. pose proof (C _ _ G) as E.
    rewrite Forall_forall in Pos. specialize (Pos _ G). cbn [snd] in Pos.
    rewrite <- E. destruct n; [lia | reflexivity].
  - apply getOwn_None in G. rewrite M in G.
    apply (count_occ_not_In string_dec) in G. now rewrite G.
Qed.

Lemma countsOf_tally (ks : list string) : countsOf ks (counted (tally ks)).
Proof.
  split.
  - rewrite counted_keys. apply tally_spec.
  - intros k. rewrite getOwn_counted, getOwn_tally.
    now destruct (count_occ string_dec ks k).
Qed.

Lemma get_tally (ks : list string) (k : string) :
  In k ks ->
  Obj.get (counted (tally ks)) k
  = Obj.Own (Num.ofNat (count_occ string_dec ks k)).
Proof.
  intros I. unfold Obj.get. rewrite getOwn_counted, getOwn_tally.
  apply (count_occ_In string_dec) in I.
  destruct (count_occ string_dec ks k); [lia | reflexivity].
Qed.

Lemma get_tally_plain (ks : list string) (k : string) :
  Obj.inherited k = false ->
  Obj.get (counted (tally ks)) k
  = match count_occ string_dec ks k with
    | O => Obj.Absent
    | S n => Obj.Own (Num.ofNat (S n))
    end.
Proof.
  intros H. destruct (count_occ string_dec ks k) eqn:C.
  - apply inherited_get; [exact H |].
    rewrite getOwn_counted, getOwn_tally, C. reflexivity.
  - rewrite <- C. apply get_tally. apply (count_occ_In string_dec). lia.
Qed.

Lemma getOwn_tally_perm (ks ks' : list string) (k : string) :
  Permutation ks ks' ->
  Obj.getOwn (counted (tally ks)) k = Obj.getOwn (counted (tally ks')) k.
Proof.
  intros P. rewrite !getOwn_counted, !getOwn_tally.
  now rewrite (proj1 (Permutation_count_occ string_dec ks ks') P k).
Qed.

Lemma flat_map_in_ext {A B : Type} (f g : A -> list B) (l : list A) :
  (forall a, In a l -> f a = g a) -> flat_map f l = flat_map g l.
Proof.
  induction l as [|a l IH]; intros H; cbn [flat_map]; [reflexivity |].
  rewrite (H a (or_introl eq_refl)), IH; [reflexivity |].
  intros b I. apply H. now right.
Qed.

(* ----------------------------------------------------------------- *)
(** ** The sections that follow a table *)

Lemma indexOfFrom_spec (x : string) (l : list string) :
  forall i,
    (~ In x l /\ Arr.indexOfFrom i x l = -1)
    \/ (exists n, Arr.indexOfFrom i x l = i + Z.of_nat n
                  /\ nth_error l n = Some x).
Proof.
  induction l as [|y l IH]; intros i; cbn [Arr.indexOfFrom].
  - left. split; [intros [] | reflexivity].
  - destruct (String.eqb_spec x y) as [->|N].
    + right. exists O. split; [lia | reflexivity].
    + destruct (IH (i + 1)) as [(NI & E)|(n & E & Hn)].
      * left. split; [| exact E]. intros [->|I]; [now apply N | now apply NI].
      * right. exists (S n). split; [lia | exact Hn].
Qed.

Lemma indexOf_spec (l : list string) (x : string) :
  (~ In x l /\ Arr.indexOf l x = -1)
  \/ (exists n, Arr.indexOf l x = Z.of_nat n /\ nth_error l n = Some x).
Proof.
  destruct (indexOfFrom_spec x l 0) as [H|(n & E & Hn)]; [now left |].
  right. exists n. split; [exact E | exact Hn].
Qed.

Lemma indexOf_inj (l : list string) (x y : string) :
  In x l \/ x = "undefined" -> In y l \/ y = "undefined" ->
  Arr.indexOf l x = Arr.indexOf l y -> x = y.
Proof.
  intros Hx Hy E.
  destruct (indexOf_spec l x) as [(Nx & Ex)|(n & Ex & Hn)],
           (indexOf_spec l y) as [(Ny & Ey)|(m & Ey & Hm)].
  - destruct Hx as [Ix | ->]; [contradiction |].
    destruct Hy as [Iy | ->]; [contradiction | reflexivity].
  - lia.
  - lia.
  - assert (n = m) by lia. subst m. congruence.
Qed.

Lemma before_byIndexIn (table : list string) (x y : string) :
  Arr.before (byIndexIn table) x y
  = (Arr.indexOf table x <? Arr.indexOf table y).
Proof.
  unfold Arr.before, byIndexIn. rewrite sub_ofZ, lt_ofZ.
  destruct (Z.ltb_spec (Arr.indexOf table x - Arr.indexOf table y) 0),
           (Z.ltb_spec (Arr.indexOf table x) (Arr.indexOf table y));
    try reflexivity; lia.
Qed.

Lemma sorted_strictly (table : list string) (ks : list string) :
  StronglySorted (fun a b => Arr.indexOf table a <= Arr.indexOf table b) ks ->
  NoDup ks ->
  Forall (fun k => In k table \/ k = "undefined") ks ->
  StronglySorted (earlierIn table) ks.
Proof.
  induction 1 as [|k ks S IH F]; intros ND T; [constructor |].
  inversion ND as [|? ? NI ND']; subst. inversion T as [|? ? Tk T']; subst.
  constructor; [now apply IH |].
  rewrite Forall_forall in *. intros k' I. unfold earlierIn.
  specialize (F k' I). specialize (T' k' I).
  destruct (Z.eq_dec (Arr.indexOf table k) (Arr.indexOf table k')) as [E|];
    [| lia].
  apply indexOf_inj in E; [| assumption | assumption]. subst k'. contradiction.
Qed.

Lemma at_in_table (ext : Q -> string) (table : list string) (i : number) :
  In (ToPropertyKey ext (at_ table i)) table
  \/ ToPropertyKey ext (at_ table i) = "undefined".
Proof.
  unfold at_. destruct i as [| |q]; try now right.
  destruct ((Qden q =? 1)%positive && (0 <=? Qnum q)); [| now right].
  destruct (nth_error table (Z.to_nat (Qnum q))) as [s|] eqn:N; [| now right].
  left. cbn. now apply nth_error_In in N.
Qed.

Lemma at_ofNat (ext : Q -> string) (table : list string) (n : nat) :
  ToPropertyKey ext (at_ table (Num.ofNat n)) = nth n table "undefined".
Proof.
  unfold at_, Num.ofNat, Num.ofZ, inject_Z. cbn [Qnum Qden Pos.eqb andb].
  destruct (Z.leb_spec 0 (Z.of_nat n)); [| lia]. rewrite Nat2Z.id.
  destruct (nth_error table n) as [s|] eqn:N.
  - cbn. symmetry. now apply nth_error_nth.
  - cbn. symmetry. apply nth_overflow. now apply nth_error_None.
Qed.

Section TableOrder.
Variable ext : Q -> string.
Variable toLocale : number -> string.
Variable table : list string.

Lemma table_lines (title : string) (labels : list string) (total : number) :
  Forall (fun k => In k table \/ k = "undefined") labels ->
  exists ks : list string,
    _logConsoleBreakdown ext toLocale title (counted (tally labels)) total
                         (Some (byIndexIn table))
    = title
        :: flat_map (fun k =>
                       _logConsoleStat ext toLocale (tab ++ k)
                         (Obj.Own (Num.ofNat (count_occ string_dec labels k)))
                         total)
                    ks
    /\ StronglySorted (earlierIn table) ks
    /\ (forall k, In k ks <-> In k labels).
Proof.
  intros T.
  set (o := counted (tally labels)).
  set (ks := Arr.sort (byIndexIn table) (Obj.keys o)).
  destruct (tally_spec labels) as (ND & _ & _ & M & _).
  assert (P : Permutation ks (map fst (tally labels))).
  { unfold ks. rewrite <- (counted_keys (tally labels)).
    eapply Permutation_trans; [apply sort_perm | apply keys_perm]. }
  assert (I : forall k, In k ks <-> In k labels).
  { intros k. rewrite <- M. split; apply Permutation_in;
      [exact P | apply Permutation_sym, P]. }
  exists ks. split; [| split; [| exact I]].
  - unfold _logConsoleBreakdown. fold o. fold ks. f_equal.
    apply flat_map_in_ext. intros k Hk. unfold o.
    rewrite get_tally; [reflexivity | now apply I].
  - apply sorted_strictly.
    + apply (sort_ordered (byIndexIn table)
               (fun a b => Arr.indexOf table a <= Arr.indexOf table b)).
      * intros x y z. lia.
      * intros x y B. rewrite before_byIndexIn in B.
        apply Z.ltb_lt in B. lia.
      * intros x y B. rewrite before_byIndexIn in B.
        apply Z.ltb_ge in B. lia.
    + apply (Permutation_NoDup (Permutation_sym P)), ND.
    + apply Forall_forall. intros k Hk. rewrite Forall_forall in T.
      now apply T, I.
Qed.

End TableOrder.

(** X7.  The month section of the report is its title followed by one
    line for each month in which some row falls, in the order of the
    calendar, each line showing the number of rows of its month.  The month
    of a row is the name at the local month of its crash date in
    [MONTH_CONVERSION]; a row whose crash date is invalid is counted under
    the label "undefined", whose line comes first. *)
Theorem month_lines_follow_the_calendar
        (ext : Q -> string) (parse : string -> Date) (localMonth : Z -> nat)
        (toLocale : number -> string) (data : list Item) :
  exists months : list string,
    _logConsoleBreakdown ext toLocale "By Month:"
      (month (breakdowns (computeStats ext parse localMonth data)))
      (totalCrashes (computeStats ext parse localMonth data))
      (Some (byIndexIn MONTH_CONVERSION))
    = "By Month:"
        :: flat_map
             (fun k =>
                _logConsoleStat ext toLocale (tab ++ k)
                  (Obj.Own
                     (Num.ofNat
                        (count_occ string_dec
                           (map (fun item =>
                                   ToPropertyKey ext
                                     (monthLabel parse localMonth item)) data)
                           k)))
                  (totalCrashes (computeStats ext parse localMonth data)))
             months
    /\ StronglySorted (earlierIn MONTH_CONVERSION) months
    /\ (forall k,
          In k months <->
          exists item,
            In item data
            /\ ToPropertyKey ext (monthLabel parse localMonth item) = k)
    /\ Forall (fun k => In k MONTH_CONVERSION \/ k = "undefined") months
    /\ (forall item,
          ToPropertyKey ext (monthLabel parse localMonth item)
          = match Date_new parse (field item "CrashDateandTime") with
            | Some t => nth (localMonth t) MONTH_CONVERSION "undefined"
            | None => "undefined"
            end)
    /\ (forall k, In k MONTH_CONVERSION -> earlierIn MONTH_CONVERSION "undefined" k).
Proof.
  destruct (breakdowns_are_tallies ext parse localMonth data)
    as (_ & _ & E & _).
  assert (T : Forall (fun k => In k MONTH_CONVERSION \/ k = "undefined")
                (map (fun item =>
                        ToPropertyKey ext (monthLabel parse localMonth item))
                     data)).
  { apply Forall_map, Forall_forall. intros item _. apply at_in_table. }
  destruct (table_lines ext toLocale MONTH_CONVERSION "By Month:" _
              (totalCrashes (computeStats ext parse localMonth data)) T)
    as (ks & L & S & I).
  exists ks. rewrite E.
  split; [exact L | split; [exact S | split; [| split; [| split]]]].
  - intros k. rewrite I, in_map_iff.
    split; intros (item & A & B); exists item; now split.
  - apply Forall_forall. intros k Hk. apply I in Hk.
    rewrite Forall_forall in T. now apply T.
  - intros item. unfold monthLabel, Date_getMonth.
    destruct (Date_new parse (field item "CrashDateandTime")) as [t|];
      [apply at_ofNat | reflexivity].
  - intros k Hk. cbn in Hk. unfold earlierIn.
    repeat (destruct Hk as [<-|Hk]; [reflexivity |]). destruct Hk.
Qed.

(** X8.  The day-of-week section of the report is its title followed by
    one line for each day name some row has, in the order of the week from
    Sunday to Saturday, each line showing the number of rows of its day; a
    row whose ordinal has no name is counted under the label "undefined",
    whose line comes first. *)
Theorem dayOfWeek_lines_follow_the_week
        (ext : Q -> string) (parse : string -> Date) (localMonth : Z -> nat)
        (toLocale : number -> string) (data : list Item) :
  exists days : list string,
    _logConsoleBreakdown ext toLocale "By Day of Week:"
      (dayOfWeek (breakdowns (computeStats ext parse localMonth data)))
      (totalCrashes (computeStats ext parse localMonth data))
      (Some (byIndexIn DAY_OF_WEEK_CONVERSION))
    = "By Day of Week:"
        :: flat_map
             (fun k =>
                _logConsoleStat ext toLocale (tab ++ k)
                  (Obj.Own
                     (Num.ofNat
                        (count_occ string_dec
                           (map (fun item =>
                                   ToPropertyKey ext (dayOfWeekLabel item)) data)
                           k)))
                  (totalCrashes (computeStats ext parse localMonth data)))
             days
    /\ StronglySorted (earlierIn DAY_OF_WEEK_CONVERSION) days
    /\ (forall k,
          In k days <->
          exists item, In item data
                       /\ ToPropertyKey ext (dayOfWeekLabel item) = k)
    /\ Forall (fun k => In k DAY_OF_WEEK_CONVERSION \/ k = "undefined") days
    /\ (forall k, In k DAY_OF_WEEK_CONVERSION ->
                  earlierIn DAY_OF_WEEK_CONVERSION "undefined" k).
Proof.
  destruct (breakdowns_are_tallies ext parse localMonth data)
    as (_ & _ & _ & E & _).
  assert (T : Forall (fun k => In k DAY_OF_WEEK_CONVERSION \/ k = "undefined")
                (map (fun item => ToPropertyKey ext (dayOfWeekLabel item)) data)).
  { apply Forall_map, Forall_forall. intros item _. apply at_in_table. }
  destruct (table_lines ext toLocale DAY_OF_WEEK_CONVERSION "By Day of Week:" _
              (totalCrashes (computeStats ext parse localMonth data)) T)
    as (ks & L & S & I).
  exists ks. rewrite E.
  split; [exact L | split; [exact S | split; [| split]]].
  - intros k. rewrite I, in_map_iff.
    split; intros (item & A & B); exists item; now split.
  - apply Forall_forall. intros k Hk. apply I in Hk.
    rewrite Forall_forall in T. now apply T.
  - intros k Hk. cbn in Hk. unfold earlierIn.
    repeat (destruct Hk as [<-|Hk]; [reflexivity |]). destruct Hk.
Qed.

(** X9.  The day name of a row: for a day-of-week ordinal from 1 to 7 it
    is the name at that place of the week, Sunday for 1 and Saturday for 7;
    for any other integer, for a cell that is blank or is no number, and
    for a row without the column, there is no name and the row is counted
    under the label "undefined". *)
Theorem dayOfWeek_label_of_the_ordinal (ext : Q -> string) (item : Item) :
  (forall d : Z,
     field item "Dayoftheweek" = num (Num.ofZ d) ->
     ToPropertyKey ext (dayOfWeekLabel item)
     = if (1 <=? d) && (d <=? 7)
       then nth (Z.to_nat (d - 1)) DAY_OF_WEEK_CONVERSION ""
       else "undefined")
  /\ (field item "Dayoftheweek" = num (Num.ofZ 1) ->
      dayOfWeekLabel item = str "Sunday")
  /\ (field item "Dayoftheweek" = num (Num.ofZ 7) ->
      dayOfWeekLabel item = str "Saturday")
  /\ (field item "Dayoftheweek" = undefined ->
      dayOfWeekLabel item = undefined)
  /\ (forall s : string,
        Num.ofString s = NaN \/ nonBlank s = false ->
        field item "Dayoftheweek" = str s ->
        dayOfWeekLabel item = undefined).
Proof.
  split; [| repeat split].
  - intros d E. unfold dayOfWeekLabel, minus. rewrite E. cbn [ToNumber].
    rewrite sub_ofZ. unfold at_, Num.ofZ, inject_Z. cbn [Qnum Qden].
    cbn [Pos.eqb andb].
    destruct (Z.leb_spec 1 d), (Z.leb_spec d 7), (Z.leb_spec 0 (d - 1));
      cbn [andb]; try lia; try reflexivity.
    + assert (H' : d = 1 \/ d = 2 \/ d = 3 \/ d = 4 \/ d = 5 \/ d = 6 \/ d = 7)
        by lia.
      destruct H' as [->|[->|[->|[->|[->|[->| ->]]]]]]; reflexivity.
    + destruct (nth_error DAY_OF_WEEK_CONVERSION (Z.to_nat (d - 1))) eqn:N;
        [| reflexivity].
      assert (N' : nth_error DAY_OF_WEEK_CONVERSION (Z.to_nat (d - 1)) <> None)
        by congruence.
      apply nth_error_Some in N'.
      change (List.length DAY_OF_WEEK_CONVERSION) with 7%nat in N'. lia.
  - intros E. unfold dayOfWeekLabel. now rewrite E.
  - intros E. unfold dayOfWeekLabel. now rewrite E.
  - intros E. unfold dayOfWeekLabel. now rewrite E.
  - intros s [N|B] E; unfold dayOfWeekLabel, minus; rewrite E; cbn [ToNumber].
    + now rewrite N.
    + unfold Num.ofString, Str.trim. now rewrite (trimStart_blank s B).
Qed.

(* ----------------------------------------------------------------- *)
(** ** The seven counters *)

Lemma count_occ_raised (ext : Q -> string) (item : Item) (flag name k : string) :
  count_occ string_dec
    (map (fun v => ToPropertyKey ext v) (raised item flag name)) k
  = if isTrue (field item flag) && String.eqb name k then 1%nat else 0%nat.
Proof.
  unfold raised. destruct (isTrue (field item flag)); [| reflexivity].
  cbn [map count_occ ToPropertyKey ToString andb].
  destruct (string_dec name k) as [->|N].
  - now rewrite String.eqb_refl.
  - apply String.eqb_neq in N. now rewrite N.
Qed.

Lemma count_occ_counterLabels (ext : Q -> string) (item : Item) :
  Forall (fun fn =>
            count_occ string_dec
              (map (fun v => ToPropertyKey ext v) (counterLabels item)) (snd fn)
            = if isTrue (field item (fst fn)) then 1%nat else 0%nat)
         involvementFlags.
Proof.
  unfold counterLabels, involvementFlags.
  repeat constructor; cbn [fst snd];
    rewrite !map_app, !count_occ_app, !count_occ_raised;
    cbn [String.eqb Ascii.eqb Bool.eqb andb];
    rewrite ?andb_false_r, ?andb_true_r; cbn [Nat.add];
    destruct (isTrue _); reflexivity.
Qed.

Lemma count_occ_flagged (ext : Q -> string) (data : list Item) :
  Forall (fun fn =>
            count_occ string_dec
              (map (fun v => ToPropertyKey ext v) (flat_map counterLabels data))
              (snd fn)
            = flagged (fst fn) data)
         involvementFlags.
Proof.
  induction data as [|item data IH].
  - unfold involvementFlags. repeat constructor.
  - pose proof (count_occ_counterLabels ext item) as H.
    unfold involvementFlags in *.
    repeat match goal with
           | H : Forall _ (_ :: _) |- _ => inversion H; clear H; subst
           | H : Forall _ [] |- _ => clear H
           end.
    cbn [fst snd] in *.
    repeat constructor; cbn [fst snd flat_map];
      rewrite map_app, count_occ_app; unfold flagged in *; cbn [filter];
      match goal with
      | |- context [isTrue (field item ?f)] =>
          destruct (isTrue (field item f)); cbn [List.length]; lia
      end.
Qed.

(** X10.  Each of the seven involvement counters of the statistics object
    holds the number of rows whose flag is exactly [true], and is absent
    from the object when there is no such row: PropertyDamageIndicator
    counts into includesPropertyDamage, AlcoholInvolved into
    includesAlcohol, AggressiveDriverInvolved into
    includesAggressiveDriver, BicycleInvolved into includesBicycle,
    CellPhoneInvolved into includesCellPhone, AnimalInvolved into
    includesAnimal and DrugInvolved into includesDrugs. *)
Theorem counters_count_the_true_flags
        (ext : Q -> string) (parse : string -> Date) (localMonth : Z -> nat)
        (data : list Item) :
  Forall (fun fn =>
            counter (computeStats ext parse localMonth data) (snd fn)
            = match flagged (fst fn) data with
              | O => Obj.Absent
              | S n => Obj.Own (Num.ofNat (S n))
              end)
         involvementFlags.
Proof.
  destruct (breakdowns_are_tallies ext parse localMonth data)
    as (_ & _ & _ & _ & _ & _ & E).
  pose proof (count_occ_flagged ext data) as H.
  rewrite Forall_forall in *. intros [flag name] I.
  specialize (H _ I). cbn [fst snd] in *.
  unfold counter. rewrite E, <- H. apply get_tally_plain.
  cbn in I.
  repeat (destruct I as [[= <- <-]|I]; [reflexivity |]). destruct I.
Qed.

(* ----------------------------------------------------------------- *)
(** ** Sums and counts of the breakdowns *)

(** X11.  [totalCrashes] is the number of rows.  The counts of the month
    breakdown and of the day-of-week breakdown always add up to it; the
    counts of the type, severity, hour and intersection breakdowns add up
    to it when no row has, for that breakdown, a label that
    [Object.prototype] answers to. *)
Theorem plain_labels_sum_to_totalCrashes
        (ext : Q -> string) (parse : string -> Date) (localMonth : Z -> nat)
        (data : list Item) :
  totalCrashes (computeStats ext parse localMonth data)
  = Num.ofNat (List.length data)
  /\ sumCounts (month (breakdowns (computeStats ext parse localMonth data)))
     = Num.ofNat (List.length data)
  /\ sumCounts (dayOfWeek (breakdowns (computeStats ext parse localMonth data)))
     = Num.ofNat (List.length data)
  /\ (Forall (fun item =>
                Obj.inherited (ToPropertyKey ext (typeLabel item)) = false)
             data ->
      sumCounts (type (breakdowns (computeStats ext parse localMonth data)))
      = Num.ofNat (List.length data))
  /\ (Forall (fun item =>
                Obj.inherited (ToPropertyKey ext (severityLabel item)) = false)
             data ->
      sumCounts (severity (breakdowns (computeStats ext parse localMonth data)))
      = Num.ofNat (List.length data))
  /\ (Forall (fun item =>
                Obj.inherited (ToPropertyKey ext (hourLabel ext item)) = false)
             data ->
      sumCounts (hour (breakdowns (computeStats ext parse localMonth data)))
      = Num.ofNat (List.length data))
  /\ (Forall (fun item =>
                Obj.inherited (ToPropertyKey ext (locationLabel item)) = false)
             data ->
      sumCounts
        (intersection (breakdowns (computeStats ext parse localMonth data)))
      = Num.ofNat (List.length data)).
Proof.
  destruct (sums_equal_totalCrashes ext parse localMonth data)
    as (T & A & B & C & D & E & F).
  rewrite T in *. repeat split; assumption.
Qed.

(** X12.  Every breakdown is a count of its labels: a label is a key of
    the breakdown exactly when some row has it, and its value is the
    number of rows that have it.  This holds always for the month and the
    day-of-week breakdowns, and for the type, severity, hour and
    intersection breakdowns when no row has, for that breakdown, a label
    that [Object.prototype] answers to. *)
Theorem plain_labels_are_counted
        (ext : Q -> string) (parse : string -> Date) (localMonth : Z -> nat)
        (data : list Item) :
  countsOf (map (fun item => ToPropertyKey ext (monthLabel parse localMonth item))
                data)
           (month (breakdowns (computeStats ext parse localMonth data)))
  /\ countsOf (map (fun item => ToPropertyKey ext (dayOfWeekLabel item)) data)
              (dayOfWeek (breakdowns (computeStats ext parse localMonth data)))
  /\ (Forall (fun item =>
                Obj.inherited (ToPropertyKey ext (typeLabel item)) = false)
             data ->
      countsOf (map (fun item => ToPropertyKey ext (typeLabel item)) data)
               (type (breakdowns (computeStats ext parse localMonth data))))
  /\ (Forall (fun item =>
                Obj.inherited (ToPropertyKey ext (severityLabel item)) = false)
             data ->
      countsOf (map (fun item => ToPropertyKey ext (severityLabel item)) data)
               (severity (breakdowns (computeStats ext parse localMonth data))))
  /\ (Forall (fun item =>
                Obj.inherited (ToPropertyKey ext (hourLabel ext item)) = false)
             data ->
      countsOf (map (fun item => ToPropertyKey ext (hourLabel ext item)) data)
               (hour (breakdowns (computeStats ext parse localMonth data))))
  /\ (Forall (fun item =>
                Obj.inherited (ToPropertyKey ext (locationLabel item)) = false)
             data ->
      countsOf (map (fun item => ToPropertyKey ext (locationLabel item)) data)
               (intersection
                  (breakdowns (computeStats ext parse localMonth data)))).
Proof.
  destruct (breakdowns_are_tallies ext parse localMonth data)
    as (A & B & C & D & E & F & _).
  split; [rewrite C; apply countsOf_tally |].
  split; [rewrite D; apply countsOf_tally |].
  split; [intros H; rewrite (A H); apply countsOf_tally |].
  split; [intros H; rewrite (B H); apply countsOf_tally |].
  split; [intros H; rewrite (E H); apply countsOf_tally |].
  intros H; rewrite (F H); apply countsOf_tally.
Qed.

(* ----------------------------------------------------------------- *)
(** ** The report as a whole *)

Lemma earliest_set (ext : Q -> string) (parse : string -> Date)
      (localMonth : Z -> nat) (data : list Item) :
  forall s : Stats,
    (data <> [] \/ earliestCrashDate s <> None) ->
    earliestCrashDate (fold_left (visit ext parse localMonth) data s) <> None.
Proof.
  induction data as [|item data IH]; intros s H; cbn [fold_left].
  - destruct H as [H|H]; [now contradict H | exact H].
  - apply IH. right. rewrite earliest_visit.
    destruct (earliestCrashDate s); [destruct (Date_lt _ _) |]; discriminate.
Qed.

Lemma latest_set (ext : Q -> string) (parse : string -> Date)
      (localMonth : Z -> nat) (data : list Item) :
  forall s : Stats,
    (data <> [] \/ latestCrashDate s <> None) ->
    latestCrashDate (fold_left (visit ext parse localMonth) data s) <> None.
Proof.
  induction data as [|item data IH]; intros s H; cbn [fold_left].
  - destruct H as [H|H]; [now contradict H | exact H].
  - apply IH. right. rewrite latest_visit.
    destruct (latestCrashDate s); [destruct (Date_lt _ _) |]; discriminate.
Qed.

(** X13.  [displayStats] breaks off with a [TypeError] exactly when the
    statistics come from no rows at all: then the report is the first
    divider line and nothing else, which is also all that [main] prints
    for a file whose parser ends without a row.  For one row or more the
    report is printed to its end, and begins with the divider, the line
    "Disclaimer:" and the line that names the earliest and the latest crash
    date as the host prints them. *)
Theorem report_breaks_off_only_without_rows
        (ext : Q -> string) (parse : string -> Date) (localMonth : Z -> nat)
        (toLocale : number -> string) (toLocaleDate : Date -> string)
        (Error : Type) (data : list Item) :
  threw (displayStats ext toLocale toLocaleDate
           (computeStats ext parse localMonth data))
  = match data with [] => true | _ :: _ => false end
  /\ displayStats ext toLocale toLocaleDate (computeStats ext parse localMonth [])
     = {| lines := _logConsoleLineDivider; threw := true |}
  /\ main ext parse localMonth toLocale toLocaleDate Error [parserEnd]
     = Reported Error {| lines := _logConsoleLineDivider; threw := true |}
  /\ (data <> [] ->
      exists (earliest latest : Date) (rest : list string),
        earliestCrashDate (computeStats ext parse localMonth data) = Some earliest
        /\ latestCrashDate (computeStats ext parse localMonth data) = Some latest
        /\ lines (displayStats ext toLocale toLocaleDate
                    (computeStats ext parse localMonth data))
           = (_logConsoleLineDivider
              ++ [ "Disclaimer:";
                   ("This analysis provides crash information for Grand Rapids between "
                      ++ toLocaleDate earliest ++ " and "
                      ++ toLocaleDate latest ++ ".")%string ]
              ++ rest)%list).
Proof.
  assert (S : data <> [] ->
              exists e l,
                earliestCrashDate
                  (fold_left (visit ext parse localMonth) data (newStats data))
                = Some e
                /\ latestCrashDate
                     (fold_left (visit ext parse localMonth) data (newStats data))
                   = Some l).
  { intros N.
    pose proof (earliest_set ext parse localMonth data (newStats data)
                  (or_introl N)) as E.
    pose proof (latest_set ext parse localMonth data (newStats data)
                  (or_introl N)) as L.
    destruct (earliestCrashDate _) as [e|]; [| contradiction].
    destruct (latestCrashDate _) as [l|]; [| contradiction].
    now exists e, l. }
  split; [| split; [reflexivity | split; [reflexivity |]]].
  - destruct data as [|item data]; [reflexivity |].
    destruct S as (e & l & E & L); [discriminate |].
    unfold displayStats, computeStats.
    cbn [earliestCrashDate latestCrashDate breakdowns intersectionTop10].
    rewrite E, L. reflexivity.
  - intros N. destruct (S N) as (e & l & E & L).
    exists e, l. unfold displayStats, computeStats.
    cbn [earliestCrashDate latestCrashDate breakdowns intersectionTop10].
    rewrite E, L. eexists. split; [reflexivity | split; [reflexivity |]].
    cbn [lines]. unfold _logConsoleLineDivider.
    cbn [app]. reflexivity.
Qed.

(* ----------------------------------------------------------------- *)
(** ** Cells that are blank, and cells that read as numbers *)

Lemma toLowerCaseChar_white (c : ascii) :
  Str.isWhiteSpace c = true -> Str.toLowerCaseChar c = c.
Proof.
  destruct c as [[] [] [] [] [] [] [] []]; intros H;
    try reflexivity; vm_compute in H; discriminate.
Qed.

Lemma toLowerCase_blank (s : string) :
  nonBlank s = false -> Str.toLowerCase s = s.
Proof.
  induction s as [|c s IH]; [reflexivity |].
  rewrite nonBlank_cons. intros H. apply orb_false_iff in H as (C & H).
  apply negb_false_iff in C. cbn [Str.toLowerCase].
  now rewrite (toLowerCaseChar_white c C), IH.
Qed.

Lemma isNumeric_blank (s : string) :
  nonBlank s = false -> _isNumeric (str s) = false.
Proof.
  intros H. unfold _isNumeric, Num.parseFloat.
  rewrite (trimStart_blank s H). cbn. apply andb_false_r.
Qed.

Lemma collapseFrom_blank (s : string) :
  forall p,
    pendingWhiteSpace p -> nonBlank s = false ->
    nonBlank (Str.collapseFrom p s) = false.
Proof.
  induction s as [|c s IH]; intros p P H.
  - rewrite collapseFrom_nil. now apply flushed_blank.
  - rewrite nonBlank_cons in H. apply orb_false_iff in H as (C & H).
    apply negb_false_iff in C. cbn [Str.collapseFrom]. rewrite C.
    destruct p as [[c0 m]|]; apply IH; cbn; assumption.
Qed.

Lemma cleaned_blank (s : string) : nonBlank s = false -> cleaned s = "".
Proof.
  intros H. unfold cleaned, Str.trim, Str.collapseWhiteSpace.
  rewrite trimStart_blank; [reflexivity |].
  now apply collapseFrom_blank.
Qed.

Lemma trimStart_after_blank (s t : string) :
  nonBlank s = false -> Str.trimStart (s ++ t) = Str.trimStart t.
Proof.
  induction s as [|c s IH]; [reflexivity |].
  rewrite nonBlank_cons. intros H. apply orb_false_iff in H as (C & H).
  apply negb_false_iff in C. cbn [append Str.trimStart]. rewrite C. now apply IH.
Qed.

Lemma mapValues_blank (header value : string) :
  header <> CRASH_LOCATION_HEADER -> nonBlank value = false ->
  mapValues header value = str value.
Proof.
  intros E B. unfold mapValues.
  apply String.eqb_neq in E. rewrite E.
  rewrite (toLowerCase_blank value B).
  destruct (String.eqb_spec value "yes") as [->|_]; [discriminate B |].
  destruct (String.eqb_spec value "no") as [->|_]; [discriminate B |].
  now rewrite (isNumeric_blank value B).
Qed.

(** X14.  [mapValues] never yields [NaN] and never yields [undefined].  A
    number it yields is the numeric value of the whole cell, and a boolean
    it yields stands for a cell that reads "yes" or "no" in some
    capitalisation; only a field that is not the crash location yields
    either.  A string it yields for such a field is the cell as it was.  A
    cell that is empty or holds only white space stays as it is, and
    becomes the empty string in the crash-location field. *)
Theorem mapValues_keeps_what_is_not_a_number (header value : string) :
  mapValues header value <> num NaN
  /\ mapValues header value <> undefined
  /\ (forall n, mapValues header value = num n ->
                header <> CRASH_LOCATION_HEADER /\ n = Num.ofString value)
  /\ (forall s, mapValues header value = str s ->
                s = value \/ header = CRASH_LOCATION_HEADER)
  /\ (forall b, mapValues header value = boolean b ->
                header <> CRASH_LOCATION_HEADER
                /\ Str.toLowerCase value = if b then "yes" else "no")
  /\ (nonBlank value = false ->
      mapValues header value
      = if String.eqb header CRASH_LOCATION_HEADER then str "" else str value).
Proof.
  destruct (String.eqb_spec header CRASH_LOCATION_HEADER) as [E|E].
  - unfold mapValues. rewrite (proj2 (String.eqb_eq _ _) E).
    split; [discriminate | split; [discriminate | split; [| split; [| split]]]].
    + intros n H. discriminate H.
    + intros s _. now right.
    + intros b H. discriminate H.
    + intros B. f_equal. unfold canonicalLocation.
      change (Str.trim (Str.collapseWhiteSpace value)) with (cleaned value).
      now rewrite (cleaned_blank value B).
  - assert (K : forall n, mapValues header value = num n ->
                  n = Num.ofString value /\ n <> NaN).
    { unfold mapValues. apply String.eqb_neq in E. rewrite E.
      destruct (String.eqb (Str.toLowerCase value) "yes"); [discriminate |].
      destruct (String.eqb (Str.toLowerCase value) "no"); [discriminate |].
      destruct (_isNumeric (str value)) eqn:I; [| discriminate].
      intros n [= <-]. split; [reflexivity |].
      unfold _isNumeric in I. apply andb_true_iff in I as (I & _).
      cbn [ToNumber] in *. intros N. rewrite N in I. discriminate I. }
    split; [| split; [| split; [| split; [| split]]]].
    + intros H. destruct (K NaN H) as (_ & N). now apply N.
    + unfold mapValues. apply String.eqb_neq in E. rewrite E.
      destruct (String.eqb (Str.toLowerCase value) "yes"); [discriminate |].
      destruct (String.eqb (Str.toLowerCase value) "no"); [discriminate |].
      destruct (_isNumeric (str value)); discriminate.
    + intros n H. split; [exact E | now apply K].
    + intros s. unfold mapValues. apply String.eqb_neq in E. rewrite E.
      destruct (String.eqb (Str.toLowerCase value) "yes"); [discriminate |].
      destruct (String.eqb (Str.toLowerCase value) "no"); [discriminate |].
      destruct (_isNumeric (str value)); [discriminate |].
      intros [= <-]. now left.
    + intros b H. split; [exact E |]. revert H. unfold mapValues.
      apply String.eqb_neq in E. rewrite E.
      destruct (String.eqb_spec (Str.toLowerCase value) "yes") as [Y|_];
        [now intros [= <-] |].
      destruct (String.eqb_spec (Str.toLowerCase value) "no") as [N|_];
        [now intros [= <-] |].
      destruct (_isNumeric (str value)); discriminate.
    + intros B. now rewrite (mapValues_blank header value E B).
Qed.

(** X15.  A blank cell in the hour column is counted as hour 0: the
    normaliser keeps the blank as a string, [+ 4] then appends the text
    "4" to it, and [% 24] reads the result as the number 4, so the row
    lands in bucket 4 together with the rows of hour 0.  A row without the
    column lands under the label "NaN". *)
Theorem blank_hour_is_counted_in_bucket_4
        (ext : Q -> string) (header value : string) :
  header <> CRASH_LOCATION_HEADER -> nonBlank value = false ->
  mapValues header value = str value
  /\ plus ext (mapValues header value) (num (Num.ofZ 4)) = str (value ++ "4")
  /\ shiftedHour ext (mapValues header value) = Num.ofZ 4
  /\ shiftedHour ext (mapValues header value)
     = shiftedHour ext (num (Num.ofZ 0))
  /\ ToPropertyKey ext (num (shiftedHour ext (mapValues header value))) = "4"
  /\ ToPropertyKey ext (num (shiftedHour ext undefined)) = "NaN".
Proof.
  intros E B. rewrite (mapValues_blank header value E B).
  assert (H : shiftedHour ext (str value) = Num.ofZ 4).
  { unfold shiftedHour, modulo, plus.
    change (ToString ext (num (Num.ofZ 4))) with "4".
    cbn [ToNumber ToString]. unfold Num.ofString, Str.trim.
    rewrite (trimStart_after_blank value "4" B).
    change (Num.rem (Num.ofZ 4) (Num.ofZ 24) = Num.ofZ 4).
    now rewrite rem_ofZ. }
  rewrite H. repeat split; reflexivity.
Qed.

(** X16.  A cell of the timestamp column that reads as a number is not
    parsed as a date: the normaliser turns it into a number, and
    [new Date] takes a number as the milliseconds since the epoch,
    whatever the host's parser makes of the text.  An integer of at most
    8.64e15 in magnitude gives the date of that time value; a larger one
    gives an invalid date. *)
Theorem numeric_timestamp_is_a_time_value
        (parse : string -> Date) (header value : string) (n : number) :
  mapValues header value = num n ->
  n = Num.ofString value
  /\ (forall parse' : string -> Date,
        Date_new parse' (mapValues header value)
        = Date_new parse (mapValues header value))
  /\ (forall z : Z,
        n = Num.ofZ z ->
        Date_new parse (mapValues header value)
        = if Z.abs z <=? 8640000000000000 then Some z else None).
Proof.
  intros H. split; [| rewrite H; split].
  - unfold mapValues in H.
    destruct (String.eqb header CRASH_LOCATION_HEADER); [discriminate |].
    destruct (String.eqb (Str.toLowerCase value) "yes"); [discriminate |].
    destruct (String.eqb (Str.toLowerCase value) "no"); [discriminate |].
    destruct (_isNumeric (str value)); [| discriminate].
    now injection H as <-.
  - intros parse'. reflexivity.
  - intros z ->. unfold Date_new, Num.ofZ. cbn [ToNumber].
    unfold Qle_bool, Qabs, inject_Z. cbn [Qnum Qden].
    rewrite !Z.mul_1_r, Z.quot_1_r. reflexivity.
Qed.

(* ----------------------------------------------------------------- *)
(** ** One street, and cleaning twice *)

Lemma tidy_tail (c : ascii) (s : string) :
  tidy (String c s) = true -> tidy s = true.
Proof. cbn [tidy]. intros H. now apply andb_true_iff in H as (_ & H). Qed.

Lemma collapseFrom_tidy_fixed (s : string) :
  tidy s = true ->
  Str.collapseFrom None s = s
  /\ forall c, Str.isWhiteSpace c = true ->
               tidy (String c s) = true ->
               Str.collapseFrom (Some (c, false)) s = String c s.
Proof.
  induction s as [|d s IH]; intros T.
  - split; [reflexivity | intros c _ _; reflexivity].
  - destruct (IH (tidy_tail _ _ T)) as (IH1 & IH2).
    cbn [Str.collapseFrom]. destruct (Str.isWhiteSpace d) eqn:D.
    + split.
      * now apply IH2.
      * intros c C T'. cbn [tidy] in T'. rewrite C, D in T'. discriminate T'.
    + rewrite IH1. split; [reflexivity | intros c _ _; reflexivity].
Qed.

Lemma collapseFrom_tidy (s : string) :
  forall p, pendingWhiteSpace p -> tidy (Str.collapseFrom p s) = true.
Proof.
  induction s as [|c s IH]; intros p P.
  - rewrite collapseFrom_nil. now destruct p as [[c0 []]|].
  - cbn [Str.collapseFrom]. destruct (Str.isWhiteSpace c) eqn:C.
    + destruct p as [[c0 m]|]; apply IH; cbn; assumption.
    + assert (T : tidy (String c (Str.collapseFrom None s)) = true).
      { cbn [tidy]. rewrite C, (IH None I). cbn [andb negb].
        now destruct (Str.collapseFrom None s). }
      destruct p as [[c0 []]|]; cbn [append]; [| | exact T];
        cbn [tidy]; cbn [tidy] in T; rewrite T, C, andb_false_r; reflexivity.
Qed.

Lemma trimStart_tidy (s : string) :
  tidy s = true -> tidy (Str.trimStart s) = true.
Proof.
  induction s as [|c s IH]; intros T; [reflexivity |].
  cbn [Str.trimStart]. destruct (Str.isWhiteSpace c); [| exact T].
  apply IH. now apply tidy_tail in T.
Qed.

Lemma trimEnd_tidy (s : string) : tidy s = true -> tidy (Str.trimEnd s) = true.
Proof.
  induction s as [|c s IH]; intros T; [reflexivity |].
  pose proof (IH (tidy_tail _ _ T)) as T'.
  cbn [Str.trimEnd]. destruct (Str.trimEnd s) as [|d r] eqn:E.
  - now destruct (Str.isWhiteSpace c).
  - cbn [tidy]. cbn [tidy] in T'. rewrite T'.
    destruct s as [|d' s']; [discriminate E |].
    assert (D : d = d').
    { cbn [Str.trimEnd] in E. destruct (Str.trimEnd s');
        [destruct (Str.isWhiteSpace d'); [discriminate | now injection E] |
         now injection E]. }
    subst d'. cbn [tidy] in T. apply andb_true_iff in T as (T & _).
    now rewrite T.
Qed.

Lemma trimStart_twice (s : string) :
  Str.trimStart (Str.trimStart s) = Str.trimStart s.
Proof.
  induction s as [|c s IH]; [reflexivity |].
  cbn [Str.trimStart]. destruct (Str.isWhiteSpace c) eqn:C; [exact IH |].
  cbn [Str.trimStart]. now rewrite C.
Qed.

Lemma trimEnd_twice (s : string) : Str.trimEnd (Str.trimEnd s) = Str.trimEnd s.
Proof.
  induction s as [|c s IH]; [reflexivity |].
  cbn [Str.trimEnd]. destruct (Str.trimEnd s) as [|d r] eqn:E.
  - destruct (Str.isWhiteSpace c) eqn:C; [reflexivity |].
    cbn [Str.trimEnd]. now rewrite C.
  - change (Str.trimEnd (String c (String d r)))
      with (match Str.trimEnd (String d r) with
            | EmptyString =>
                if Str.isWhiteSpace c then EmptyString else String c EmptyString
            | r' => String c r'
            end).
    now rewrite IH.
Qed.

Lemma trim_twice (s : string) : Str.trim (Str.trim s) = Str.trim s.
Proof.
  unfold Str.trim. rewrite (trim_commutes (Str.trimStart s)).
  now rewrite trimStart_twice, trimEnd_twice.
Qed.

Lemma cleaned_twice (s : string) : cleaned (cleaned s) = cleaned s.
Proof.
  unfold cleaned at 1. unfold Str.collapseWhiteSpace.
  assert (T : tidy (cleaned s) = true).
  { unfold cleaned, Str.trim. apply trimEnd_tidy, trimStart_tidy.
    now apply collapseFrom_tidy. }
  rewrite (proj1 (collapseFrom_tidy_fixed _ T)).
  unfold cleaned. apply trim_twice.
Qed.

Lemma canonicalLocation_one (value : string) :
  Str.contains "&" value = false -> canonicalLocation value = cleaned value.
Proof.
  intros H. unfold canonicalLocation, Str.split.
  change (Str.trim (Str.collapseWhiteSpace value)) with (cleaned value).
  rewrite (split_one _ "" (cleaned_without _ H)). reflexivity.
Qed.

Lemma streetName_cleaned (s : string) :
  streetName s = true -> streetName (cleaned s) = true.
Proof.
  unfold streetName. intros H. apply andb_true_iff in H as (B & C).
  apply negb_true_iff in C.
  now rewrite (cleaned_nonBlank _ B), (cleaned_without _ C).
Qed.

(** X17.  A crash location without the sign "&", one street alone, is
    only cleaned: its white-space runs are collapsed and its ends trimmed.
    Cleaning it a second time changes nothing, and a blank location becomes
    the empty string. *)
Theorem canonicalLocation_of_one_street (value : string) :
  Str.contains "&" value = false ->
  canonicalLocation value = cleaned value
  /\ canonicalLocation (canonicalLocation value) = canonicalLocation value
  /\ (nonBlank value = false -> canonicalLocation value = "").
Proof.
  intros H. rewrite (canonicalLocation_one value H).
  split; [reflexivity | split].
  - rewrite (canonicalLocation_one _ (cleaned_without _ H)). apply cleaned_twice.
  - apply cleaned_blank.
Qed.

(** X18.  The location key of two streets is a fixed point of the
    clean-up: for two names that are not blank and have no "&", cleaning
    the key of "A & B" once more gives the same key. *)
Theorem canonicalLocation_is_idempotent_on_pairs (a b : string) :
  streetName a = true -> streetName b = true ->
  canonicalLocation (canonicalLocation (a ++ " & " ++ b))
  = canonicalLocation (a ++ " & " ++ b).
Proof.
  intros Ha Hb. rewrite (canonicalLocation_pair a b Ha Hb).
  pose proof (streetName_cleaned a Ha) as Ca.
  pose proof (streetName_cleaned b Hb) as Cb.
  unfold sortedPair.
  destruct (Str.lt (cleaned b) (cleaned a)) eqn:L.
  - rewrite (canonicalLocation_pair _ _ Cb Ca), !cleaned_twice.
    unfold sortedPair. now rewrite (lt_asym _ _ L).
  - rewrite (canonicalLocation_pair _ _ Ca Cb), !cleaned_twice.
    unfold sortedPair. now rewrite L.
Qed.

(* ----------------------------------------------------------------- *)
(** ** Percentages *)

Lemma mul_ofZ (a b : Z) : Num.mul (Num.ofZ a) (Num.ofZ b) = Num.ofZ (a * b).
Proof.
  unfold Num.mul, Num.ofZ, Num.fin. f_equal.
  rewrite <- (Qred_inject_Z (a * b)). apply Qred_complete.
  unfold Qeq, inject_Z, Qmult; cbn [Qnum Qden]. lia.
Qed.

Lemma div_ofZ_pos (a : Z) (p : positive) :
  Num.div (Num.ofZ a) (Num.ofZ (Z.pos p)) = Num.fin (a # p).
Proof.
  unfold Num.div, Num.ofZ. rewrite sign_inject_Z. cbn [Z.compare].
  unfold Num.fin. f_equal. apply Qred_complete.
  unfold Qeq, Qdiv, Qmult, Qinv, inject_Z; cbn [Qnum Qden]. lia.
Qed.

Lemma div_ofZ_zero (a : Z) :
  Num.div (Num.ofZ a) (Num.ofZ 0)
  = match a ?= 0 with Eq => NaN | Gt => Infinity false | Lt => Infinity true end.
Proof.
  unfold Num.div, Num.ofZ. rewrite !sign_inject_Z. reflexivity.
Qed.

Lemma pos_of_succ (t : nat) : Z.pos (Pos.of_nat (S t)) = Z.of_nat (S t).
Proof.
  rewrite <- (Nat2Pos.id (S t)) at 2 by discriminate.
  now rewrite positive_nat_Z.
Qed.

(** X19.  The percentage of a line is the share of its count in the
    total: for a count [n] and a total [t] above 0 the host formats the
    exact quotient [100 * n / t], which is 100 when the count is the total
    and 0 when the count is 0, and the line reads "title - n (share%)".
    No error is raised for a total of 0: the quotient is then [NaN] for a
    count of 0 and [Infinity] otherwise. *)
Theorem percent_is_the_share_of_the_total
        (ext : Q -> string) (toLocale : number -> string)
        (title : string) (n t : nat) :
  _convertToPercentString toLocale (Obj.Own (Num.ofNat n)) (Num.ofNat t)
  = toLocale (share n t) ++ "%"
  /\ _logConsoleStat ext toLocale title (Obj.Own (Num.ofNat n)) (Num.ofNat t)
     = [ title ++ " - " ++ Number_toString ext (Num.ofNat n)
               ++ " (" ++ toLocale (share n t) ++ "%)" ]
  /\ share (S t) (S t) = Num.ofZ 100
  /\ share 0 (S t) = Num.ofZ 0
  /\ share 0 0 = NaN
  /\ share (S n) 0 = Infinity false.
Proof.
  assert (P : _convertToPercentString toLocale (Obj.Own (Num.ofNat n))
                                      (Num.ofNat t)
              = toLocale (share n t) ++ "%").
  { unfold _convertToPercentString, slotToNumber, Num.ofNat.
    rewrite mul_ofZ. f_equal. f_equal. unfold share.
    destruct t as [|t].
    - change (Z.of_nat 0) with 0. rewrite div_ofZ_zero.
      destruct n as [|n]; [reflexivity |].
      destruct (Z.compare_spec (100 * Z.of_nat (S n)) 0); try lia. reflexivity.
    - rewrite <- (pos_of_succ t), div_ofZ_pos. do 2 f_equal. lia. }
  split; [exact P | split; [| split; [| repeat split]]].
  - unfold _logConsoleStat. unfold _convertToPercentString in *.
    rewrite P. cbn [slotToString]. rewrite !app_assoc_s. reflexivity.
  - unfold share, Num.ofZ, Num.fin. f_equal.
    rewrite <- (Qred_inject_Z 100). apply Qred_complete.
    unfold Qeq, inject_Z; cbn [Qnum Qden].
    rewrite pos_of_succ. lia.
Qed.

(* ----------------------------------------------------------------- *)
(** ** One call of [_incrementSummation] *)

Section OneProperty.
Context {A : Type}.

Lemma getOwn_replaceOwn (o : Obj.t A) (k k' : string) (v : A) :
  Obj.getOwn (Obj.replaceOwn o k v) k'
  = if String.eqb k' k
    then match Obj.getOwn o k with Some _ => Some v | None => None end
    else Obj.getOwn o k'.
Proof.
  induction o as [|[k0 v0] o IH]; cbn [Obj.replaceOwn Obj.getOwn].
  - now destruct (String.eqb k' k).
  - destruct (String.eqb_spec k k0) as [->|N]; cbn [Obj.getOwn].
    + destruct (String.eqb_spec k' k0) as [->|N']; reflexivity.
    + rewrite IH. destruct (String.eqb_spec k' k) as [->|N'].
      * apply String.eqb_neq in N. now rewrite N.
      * reflexivity.
Qed.

Lemma getOwn_app (o : Obj.t A) (k k' : string) (v : A) :
  Obj.getOwn (o ++ [(k, v)])%list k'
  = match Obj.getOwn o k' with
    | Some x => Some x
    | None => if String.eqb k' k then Some v else None
    end.
Proof.
  induction o as [|[k0 v0] o IH]; cbn [app Obj.getOwn]; [reflexivity |].
  now destruct (String.eqb k' k0).
Qed.

Lemma getOwn_set (o : Obj.t A) (k k' : string) (v : A) :
  Obj.getOwn (Obj.set o k v) k'
  = if String.eqb k' k
    then match Obj.getOwn o k with
         | Some _ => Some v
         | None => if String.eqb k Obj.protoAccessor then None else Some v
         end
    else Obj.getOwn o k'.
Proof.
  unfold Obj.set. destruct (Obj.getOwn o k) eqn:G.
  - rewrite getOwn_replaceOwn, G. reflexivity.
  - destruct (String.eqb k Obj.protoAccessor).
    + destruct (String.eqb_spec k' k) as [->|]; [exact G | reflexivity].
    + rewrite getOwn_app. destruct (String.eqb_spec k' k) as [->|];
        [now rewrite G | now destruct (Obj.getOwn o k')].
Qed.

Lemma set_keys (o : Obj.t A) (k : string) (v : A) :
  map fst (Obj.set o k v)
  = match Obj.getOwn o k with
    | Some _ => map fst o
    | None => if String.eqb k Obj.protoAccessor then map fst o
              else (map fst o ++ [k])%list
    end.
Proof.
  unfold Obj.set. destruct (Obj.getOwn o k).
  - apply replaceOwn_keys.
  - destruct (String.eqb k Obj.protoAccessor); [reflexivity |].
    now rewrite map_app.
Qed.

End OneProperty.

(** X20.  One call of [_incrementSummation] touches one property: every
    other own property of the object keeps its value, and the own
    properties keep their order, a new one going to the end.  Under a name
    other than "__proto__" the call stores one more than the count it
    finds, 1 when the name is not there or holds 0 or [NaN], and [NaN]
    when the object does not own the name but [Object.prototype] answers
    to it. *)
Theorem incrementSummation_touches_one_property
        (ext : Q -> string) (obj : Obj.t number) (propertyName : Value) :
  (forall k, k <> ToPropertyKey ext propertyName ->
             Obj.getOwn (_incrementSummation ext obj propertyName) k
             = Obj.getOwn obj k)
  /\ (ToPropertyKey ext propertyName <> Obj.protoAccessor ->
      Obj.getOwn (_incrementSummation ext obj propertyName)
                 (ToPropertyKey ext propertyName)
      = Some (incremented (Obj.get obj (ToPropertyKey ext propertyName))))
  /\ map fst (_incrementSummation ext obj propertyName)
     = (map fst obj
        ++ match Obj.getOwn obj (ToPropertyKey ext propertyName) with
           | Some _ => []
           | None =>
               if String.eqb (ToPropertyKey ext propertyName) Obj.protoAccessor
               then [] else [ToPropertyKey ext propertyName]
           end)%list.
Proof.
  set (k0 := ToPropertyKey ext propertyName).
  assert (S : exists v, _incrementSummation ext obj propertyName
                        = Obj.set obj k0 v
                        /\ (k0 <> Obj.protoAccessor ->
                            v = incremented (Obj.get obj k0))).
  { unfold _incrementSummation. fold k0. unfold incremented.
    destruct (Obj.get obj k0) as [n| | |] eqn:G;
      cbn [slotToBoolean negb slotToNumber].
    - destruct (Num.truthy n); cbn [negb]; eexists; split; reflexivity.
    - eexists; split; reflexivity.
    - eexists; split; [reflexivity |]. intros N. unfold Obj.get in G.
      destruct (Obj.getOwn obj k0); [discriminate |].
      destruct (Obj.isPrototypeMethod k0); [discriminate |].
      destruct (String.eqb_spec k0 Obj.protoAccessor);
        [contradiction | discriminate].
    - eexists; split; reflexivity. }
  destruct S as (v & E & V). rewrite E.
  split; [| split].
  - intros k N. rewrite getOwn_set. apply String.eqb_neq in N. now rewrite N.
  - intros N. rewrite getOwn_set, String.eqb_refl, (V N).
    apply String.eqb_neq in N. rewrite N.
    now destruct (Obj.getOwn obj k0).
  - rewrite set_keys. destruct (Obj.getOwn obj k0); [now rewrite app_nil_r |].
    destruct (String.eqb k0 Obj.protoAccessor);
      [now rewrite app_nil_r | reflexivity].
Qed.

(* ----------------------------------------------------------------- *)
(** ** The order of the rows *)

Lemma dates_of_rows (ext : Q -> string) (parse : string -> Date)
      (localMonth : Z -> nat) (data : list Item) :
  Forall (fun item => Date_new parse (field item "CrashDateandTime") <> None)
         data ->
  data <> [] ->
  exists e l,
    earliestCrashDate (computeStats ext parse localMonth data) = Some (Some e)
    /\ latestCrashDate (computeStats ext parse localMonth data) = Some (Some l)
    /\ Forall (fun item =>
                 exists t, Date_new parse (field item "CrashDateandTime")
                           = Some t /\ e <= t <= l) data
    /\ In (Some e)
          (map (fun item => Date_new parse (field item "CrashDateandTime")) data)
    /\ In (Some l)
          (map (fun item => Date_new parse (field item "CrashDateandTime")) data).
Proof.
  intros V NE. destruct data as [|item data]; [congruence |].
  inversion V as [|? ? Vi Vd]; subst.
  destruct (Date_new parse (field item "CrashDateandTime")) as [t|] eqn:D;
    [| contradiction].
  unfold computeStats.
  cbn [earliestCrashDate latestCrashDate fold_left].
  destruct (dates_fold ext parse localMonth data
              (visit ext parse localMonth (newStats (item :: data)) item) t t)
    as (e & l & E & L & Le & Ll & F & Ae & Al); auto.
  - rewrite earliest_visit. cbn. now rewrite D.
  - rewrite latest_visit. cbn. now rewrite D.
  - exists e, l. split; [exact E | split; [exact L |]].
    split; [| split].
    + constructor; [exists t; split; [exact D | lia] | exact F].
    + cbn [map In]. rewrite D. destruct Ae as [->|Ae]; [now left | now right].
    + cbn [map In]. rewrite D. destruct Al as [->|Al]; [now left | now right].
Qed.

(** X21.  The order of the rows decides the order in which a breakdown
    lists its keys and nothing else: for the same rows in another order
    [totalCrashes] and every count of the month and day-of-week
    breakdowns and of the seven counters are the same; so is every count
    of the type, severity, hour and intersection breakdowns when no row has
    a label that [Object.prototype] answers to; and so are the earliest and
    the latest crash date when every row has a valid crash date. *)
Theorem counts_do_not_depend_on_the_order_of_the_rows
        (ext : Q -> string) (parse : string -> Date) (localMonth : Z -> nat)
        (data data' : list Item) :
  Permutation data data' ->
  totalCrashes (computeStats ext parse localMonth data)
  = totalCrashes (computeStats ext parse localMonth data')
  /\ (forall k,
        Obj.getOwn (month (breakdowns (computeStats ext parse localMonth data))) k
        = Obj.getOwn
            (month (breakdowns (computeStats ext parse localMonth data'))) k)
  /\ (forall k,
        Obj.getOwn
          (dayOfWeek (breakdowns (computeStats ext parse localMonth data))) k
        = Obj.getOwn
            (dayOfWeek (breakdowns (computeStats ext parse localMonth data'))) k)
  /\ (forall k,
        Obj.getOwn (counters (computeStats ext parse localMonth data)) k
        = Obj.getOwn (counters (computeStats ext parse localMonth data')) k)
  /\ (Forall (fun item =>
                Obj.inherited (ToPropertyKey ext (typeLabel item)) = false
                /\ Obj.inherited (ToPropertyKey ext (severityLabel item)) = false
                /\ Obj.inherited (ToPropertyKey ext (hourLabel ext item)) = false
                /\ Obj.inherited (ToPropertyKey ext (locationLabel item)) = false)
             data ->
      forall k,
        Obj.getOwn (type (breakdowns (computeStats ext parse localMonth data))) k
        = Obj.getOwn
            (type (breakdowns (computeStats ext parse localMonth data'))) k
        /\ Obj.getOwn
             (severity (breakdowns (computeStats ext parse localMonth data))) k
           = Obj.getOwn
               (severity (breakdowns (computeStats ext parse localMonth data'))) k
        /\ Obj.getOwn
             (hour (breakdowns (computeStats ext parse localMonth data))) k
           = Obj.getOwn
               (hour (breakdowns (computeStats ext parse localMonth data'))) k
        /\ Obj.getOwn
             (intersection (breakdowns (computeStats ext parse localMonth data)))
             k
           = Obj.getOwn
               (intersection
                  (breakdowns (computeStats ext parse localMonth data'))) k)
  /\ (Forall (fun item =>
                Date_new parse (field item "CrashDateandTime") <> None) data ->
      earliestCrashDate (computeStats ext parse localMonth data)
      = earliestCrashDate (computeStats ext parse localMonth data')
      /\ latestCrashDate (computeStats ext parse localMonth data)
         = latestCrashDate (computeStats ext parse localMonth data')).
Proof.
  intros P.
  destruct (breakdowns_are_tallies ext parse localMonth data)
    as (A & B & C & D & E & F & G).
  destruct (breakdowns_are_tallies ext parse localMonth data')
    as (A' & B' & C' & D' & E' & F' & G').
  split; [| split; [| split; [| split; [| split]]]].
  - destruct (computeStats_folds ext parse localMonth data) as (T & _).
    destruct (computeStats_folds ext parse localMonth data') as (T' & _).
    now rewrite T, T', (Permutation_length P).
  - intros k. rewrite C, C'. now apply getOwn_tally_perm, Permutation_map.
  - intros k. rewrite D, D'. now apply getOwn_tally_perm, Permutation_map.
  - intros k. rewrite G, G'. apply getOwn_tally_perm, Permutation_map.
    now apply Permutation_flat_map.
  - intros H k.
    pose proof (Permutation_Forall P H) as H'.
    rewrite A, A', B, B', E, E', F, F';
      try (eapply Forall_impl; [| first [exact H | exact H']];
           cbn beta; intros item Hi; apply Hi).
    repeat split; now apply getOwn_tally_perm, Permutation_map.
  - intros V. pose proof (Permutation_Forall P V) as V'.
    destruct data as [|item data].
    { apply Permutation_nil in P. now subst data'. }
    assert (N' : data' <> []).
    { intros ->. apply Permutation_sym, Permutation_nil in P. discriminate. }
    destruct (dates_of_rows ext parse localMonth (item :: data) V)
      as (e & l & He & Hl & Fd & Ie & Il); [discriminate |].
    destruct (dates_of_rows ext parse localMonth data' V' N')
      as (e' & l' & He' & Hl' & Fd' & Ie' & Il').
    rewrite He, Hl, He', Hl'.
    set (date := fun item0 : Item =>
                   Date_new parse (field item0 "CrashDateandTime")) in *.
    assert (Pd : Permutation (map date (item :: data)) (map date data'))
      by now apply Permutation_map.
    assert (B1 : forall t, In (Some t) (map date (item :: data)) -> e <= t <= l).
    { intros t I. apply in_map_iff in I as (x & Ex & Ix).
      rewrite Forall_forall in Fd. destruct (Fd x Ix) as (t' & Et & R).
      unfold date in Ex. rewrite Et in Ex. injection Ex as ->. exact R. }
    assert (B2 : forall t, In (Some t) (map date data') -> e' <= t <= l').
    { intros t I. apply in_map_iff in I as (x & Ex & Ix).
      rewrite Forall_forall in Fd'. destruct (Fd' x Ix) as (t' & Et & R).
      unfold date in Ex. rewrite Et in Ex. injection Ex as ->. exact R. }
    pose proof (B2 _ (Permutation_in _ Pd Ie)).
    pose proof (B2 _ (Permutation_in _ Pd Il)).
    pose proof (B1 _ (Permutation_in _ (Permutation_sym Pd) Ie')).
    pose proof (B1 _ (Permutation_in _ (Permutation_sym Pd) Il')).
    split; do 2 f_equal; lia.
Qed.

(* ================================================================= *)
(** * Part V. The properties on the sample rows *)

(** Raw hour 4 goes to bucket 8 and raw hour 3 to bucket 7, not to the
    buckets 0 and 23. *)
Lemma raw_hour_4_is_bucket_8 :
  shiftedHour Sample.numberToString (num (Num.ofZ 4)) = Num.ofZ 8
  /\ shiftedHour Sample.numberToString (num (Num.ofZ 4)) <> Num.ofZ 0
  /\ shiftedHour Sample.numberToString (num (Num.ofZ 3)) = Num.ofZ 7
  /\ shiftedHour Sample.numberToString (num (Num.ofZ 3)) <> Num.ofZ 23.
Proof. repeat split; discriminate. Qed.

Lemma shiftedHour_bijection_at_23 :
  shiftedHour Sample.numberToString (num (Num.ofZ 23))
  = Num.ofZ ((23 + 4) mod 24).
Proof.
  apply (proj1 (shiftedHour_bijection Sample.numberToString) 23). lia.
Defined.

(** A blank name, and a name that ends in the sign, each give "A & B" and
    "B & A" different keys. *)
Lemma blank_name_breaks_commutation :
  canonicalLocation ("" ++ " & " ++ "Oak St") = "& Oak St"
  /\ canonicalLocation ("Oak St" ++ " & " ++ "") = "Oak St &"
  /\ canonicalLocation ("" ++ " & " ++ "Oak St")
     <> canonicalLocation ("Oak St" ++ " & " ++ "")
  /\ canonicalLocation ("Elm St &" ++ " & " ++ "Oak St") = "& Oak St & Elm St"
  /\ canonicalLocation ("Oak St" ++ " & " ++ "Elm St &") = "Elm St & & Oak St"
  /\ canonicalLocation ("Elm St &" ++ " & " ++ "Oak St")
     <> canonicalLocation ("Oak St" ++ " & " ++ "Elm St &").
Proof. repeat split; discriminate. Qed.

Lemma canonicalLocation_commutes_on_elm_and_oak :
  streetName "Elm   St " = true
  /\ streetName " Oak St" = true
  /\ canonicalLocation ("Elm   St " ++ " & " ++ " Oak St")
     = canonicalLocation (" Oak St" ++ " & " ++ "Elm   St ")
  /\ canonicalLocation ("Elm   St " ++ " & " ++ " Oak St")
     = sortedPair (cleaned "Elm   St ") (cleaned " Oak St").
Proof.
  split; [reflexivity | split; [reflexivity |]].
  apply (canonicalLocation_commutes "Elm   St " " Oak St"); reflexivity.
Defined.

(** After a row whose timestamp does not parse, both dates are invalid and
    stay so, whatever the dates of the rows that follow. *)
Lemma invalid_date_is_kept :
  earliestCrashDate (Sample.computeStats [Sample.undated; Sample.ofTypeT1])
  = Some None
  /\ latestCrashDate (Sample.computeStats [Sample.undated; Sample.ofTypeT1])
     = Some None
  /\ Date_new Sample.dateParse (field Sample.ofTypeT1 "CrashDateandTime")
     = Some 1467633600000
  /\ Date_le None (Some 1467633600000) = false
  /\ Date_le (Some 1467633600000) None = false.
Proof. repeat split. Qed.

Lemma crash_dates_bound_the_three :
  Forall (fun item =>
            Date_new Sample.dateParse (field item "CrashDateandTime") <> None)
         Sample.three
  /\ exists e l,
      earliestCrashDate (Sample.computeStats Sample.three) = Some (Some e)
      /\ latestCrashDate (Sample.computeStats Sample.three) = Some (Some l)
      /\ e <= l.
Proof.
  assert (V : Forall (fun item =>
                        Date_new Sample.dateParse
                                 (field item "CrashDateandTime") <> None)
                     Sample.three)
    by (repeat constructor; discriminate).
  split; [exact V |].
  destruct (proj2 (crash_dates_bound_every_crash
                     Sample.numberToString Sample.dateParse Sample.localMonth
                     Sample.three V))
    as (e & l & E & L & Le & _); [discriminate |].
  exists e, l. repeat split; assumption.
Defined.





(** The row of a Sunday. *)
Lemma dayOfWeek_label_of_the_ordinal_on_a_sunday :
  field Sample.ofTypeT1 "Dayoftheweek" = num (Num.ofZ 1)
  /\ ToPropertyKey Sample.numberToString (dayOfWeekLabel Sample.ofTypeT1)
     = "Sunday".
Proof.
  split; [reflexivity |].
  exact (proj1 (dayOfWeek_label_of_the_ordinal
                  Sample.numberToString Sample.ofTypeT1) 1 eq_refl).
Defined.

Lemma plain_labels_sum_to_totalCrashes_on_the_three :
  Forall (fun item =>
            Obj.inherited (ToPropertyKey Sample.numberToString (typeLabel item))
            = false) Sample.three
  /\ sumCounts (type (breakdowns (Sample.computeStats Sample.three)))
     = Num.ofNat 3.
Proof.
  assert (H : Forall (fun item =>
                        Obj.inherited
                          (ToPropertyKey Sample.numberToString (typeLabel item))
                        = false) Sample.three)
    by (repeat constructor).
  split; [exact H |].
  destruct (plain_labels_sum_to_totalCrashes
              Sample.numberToString Sample.dateParse Sample.localMonth
              Sample.three) as (_ & _ & _ & T & _).
  exact (T H).
Defined.

Lemma plain_labels_are_counted_on_the_three :
  Forall (fun item =>
            Obj.inherited (ToPropertyKey Sample.numberToString (typeLabel item))
            = false) Sample.three
  /\ countsOf
       (map (fun item => ToPropertyKey Sample.numberToString (typeLabel item))
            Sample.three)
       (type (breakdowns (Sample.computeStats Sample.three))).
Proof.
  assert (H : Forall (fun item =>
                        Obj.inherited
                          (ToPropertyKey Sample.numberToString (typeLabel item))
                        = false) Sample.three)
    by (repeat constructor).
  split; [exact H |].
  destruct (plain_labels_are_counted
              Sample.numberToString Sample.dateParse Sample.localMonth
              Sample.three) as (_ & _ & T & _).
  exact (T H).
Defined.

Lemma report_breaks_off_only_without_rows_on_the_three :
  exists (earliest latest : Date) (rest : list string),
    lines (Sample.displayStats (Sample.computeStats Sample.three))
    = (_logConsoleLineDivider
       ++ [ "Disclaimer:";
            ("This analysis provides crash information for Grand Rapids between "
               ++ Sample.dateToLocaleDateString earliest ++ " and "
               ++ Sample.dateToLocaleDateString latest ++ ".")%string ]
       ++ rest)%list.
Proof.
  destruct (report_breaks_off_only_without_rows
              Sample.numberToString Sample.dateParse Sample.localMonth
              Sample.numberToLocaleString Sample.dateToLocaleDateString
              unit Sample.three) as (_ & _ & _ & R).
  destruct R as (e & l & rest & _ & _ & L); [discriminate |].
  exists e, l, rest. exact L.
Defined.

Lemma mapValues_keeps_a_cell_of_two_spaces :
  nonBlank "  " = false /\ mapValues "CrashType" "  " = str "  ".
Proof.
  split; [reflexivity |].
  exact (proj2 (proj2 (proj2 (proj2 (proj2
           (mapValues_keeps_what_is_not_a_number "CrashType" "  ")))))
           eq_refl).
Defined.

Lemma blank_hour_is_counted_in_bucket_4_for_the_empty_cell :
  nonBlank "" = false
  /\ shiftedHour Sample.numberToString (mapValues "HourofDay" "") = Num.ofZ 4.
Proof.
  assert (H : "HourofDay" <> CRASH_LOCATION_HEADER) by discriminate.
  split; [reflexivity |].
  destruct (blank_hour_is_counted_in_bucket_4
              Sample.numberToString "HourofDay" "" H eq_refl)
    as (_ & _ & E & _).
  exact E.
Defined.

Lemma numeric_timestamp_is_a_time_value_for_20150101 :
  mapValues "CrashDateandTime" "20150101" = num (Num.ofZ 20150101)
  /\ Date_new Sample.dateParse (mapValues "CrashDateandTime" "20150101")
     = Some 20150101.
Proof.
  assert (H : mapValues "CrashDateandTime" "20150101" = num (Num.ofZ 20150101))
    by reflexivity.
  split; [exact H |].
  destruct (numeric_timestamp_is_a_time_value
              Sample.dateParse "CrashDateandTime" "20150101" _ H)
    as (_ & _ & T).
  exact (T 20150101 eq_refl).
Defined.

Lemma canonicalLocation_of_one_street_on_main_street :
  Str.contains "&" "  Main   St " = false
  /\ canonicalLocation "  Main   St " = "Main St".
Proof.
  split; [reflexivity |].
  exact (proj1 (canonicalLocation_of_one_street "  Main   St " eq_refl)).
Defined.

Lemma canonicalLocation_is_idempotent_on_elm_and_oak :
  streetName "Elm   St " = true
  /\ streetName " Oak St" = true
  /\ canonicalLocation (canonicalLocation ("Elm   St " ++ " & " ++ " Oak St"))
     = canonicalLocation ("Elm   St " ++ " & " ++ " Oak St").
Proof.
  split; [reflexivity | split; [reflexivity |]].
  exact (canonicalLocation_is_idempotent_on_pairs
           "Elm   St " " Oak St" eq_refl eq_refl).
Defined.

Lemma incrementSummation_touches_one_property_of_a_count :
  Obj.getOwn
    (_incrementSummation Sample.numberToString
       [("T1", Num.ofZ 2); ("T2", Num.ofZ 5)] (str "T1")) "T1"
  = Some (Num.ofZ 3)
  /\ Obj.getOwn
       (_incrementSummation Sample.numberToString
          [("T1", Num.ofZ 2); ("T2", Num.ofZ 5)] (str "T1")) "T2"
     = Some (Num.ofZ 5).
Proof.
  destruct (incrementSummation_touches_one_property
              Sample.numberToString [("T1", Num.ofZ 2); ("T2", Num.ofZ 5)]
              (str "T1")) as (A & B & _).
  split.
  - apply B. discriminate.
  - apply A. discriminate.
Defined.

Lemma counts_do_not_depend_on_the_order_of_the_three :
  Permutation Sample.three Sample.swapped
  /\ totalCrashes (Sample.computeStats Sample.three)
     = totalCrashes (Sample.computeStats Sample.swapped)
  /\ forall k,
       Obj.getOwn (month (breakdowns (Sample.computeStats Sample.three))) k
       = Obj.getOwn (month (breakdowns (Sample.computeStats Sample.swapped))) k.
Proof.
  assert (P : Permutation Sample.three Sample.swapped) by apply perm_swap.
  split; [exact P |].
  destruct (counts_do_not_depend_on_the_order_of_the_rows
              Sample.numberToString Sample.dateParse Sample.localMonth
              Sample.three Sample.swapped P) as (T & M & _).
  split; [exact T | exact M].
Defined.
